(** * Order_in_a_restaurant: the order book of [main.py]

    A shallow embedding of the classes [MenuItem], [Menu], [Order] and
    [Restaurant] of [main.py], and of the console front end that drives
    them, followed by the properties of the order and table life cycle.

    Conventions of the embedding:
    - a Python [int] is a [Z], a [str] is a [string]: its UTF-8 bytes, with
      a lone surrogate, which a [str] can hold and UTF-8 cannot, as the three
      bytes of its code point;
    - the dict [Restaurant.orders] is a [gmap Z Order.t] and the set
      [Restaurant.available_tables] is a [gset Z];
    - a method that mutates [self] takes the object and returns the new one,
      together with what it printed and, where it matters, what it returned
      or raised;
    - what [open] and [json.load] deliver for a file is an input of the
      model (type [source]); the text of a JSON document is not modelled;
    - the operating system carries out what it is asked: a file that is
      opened for writing takes the text (no full disk, no missing
      permission), and the console takes what is printed. *)

From Stdlib Require Import ZArith Ascii String.
From stdpp Require Import list list_monad strings sorting gmap.

Local Open Scope Z_scope.
Local Open Scope string_scope.
Local Open Scope list_scope.

(** ** Python values that come out of [json.load] *)

#[local] Set Warnings "-register-all".

Inductive json : Type :=
| JNull
| JBool (b : bool)
| JInt (z : Z)
| JFloat (m e : Z)               (* a finite double, m * 2^e; only carried around *)
| JStr (s : string)
| JArr (l : list json)
| JObj (kvs : list (string * json)).  (* a dict: its items, in insertion order *)

(** The exceptions that the program can meet, each under the class of the
    exception object itself: [UnicodeEncodeError] and [UnicodeDecodeError]
    are subclasses of [ValueError] in Python and are kept apart from the
    [ValueError] that [int] raises. *)
Inductive exn : Type :=
| FileNotFoundError
| UnicodeDecodeError
| JSONDecodeError
| UnicodeEncodeError
| KeyError (k : string)
| TypeError
| ValueError
| IndexError
| EOFError.

(** The outcome of a Python expression: a value, an exception, or
    [IllTyped] when the run would go on with a value outside the type
    annotations of [main.py] (a table number that is no [int], a name that is
    no [str]).  Such runs are not modelled any further. *)
Inductive result (A : Type) : Type :=
| Ok (a : A)
| Raise (e : exn)
| IllTyped.
Arguments Ok {A} a.
Arguments Raise {A} e.
Arguments IllTyped {A}.

#[global] Instance result_ret : MRet result := λ A a, Ok a.
#[global] Instance result_bind : MBind result := λ A B f m,
  match m with
  | Ok a => f a
  | Raise e => Raise e
  | IllTyped => IllTyped
  end.

#[global] Instance result_fmap : FMap result := λ A B f m,
  match m with
  | Ok a => Ok (f a)
  | Raise e => Raise e
  | IllTyped => IllTyped
  end.

(** [l[i]] for an index [i >= 0]. *)
Definition py_index {A : Type} (l : list A) (i : nat) : result A :=
  match l !! i with
  | Some x => Ok x
  | None => Raise IndexError
  end.

(** What the two lines [open(filename, "r", encoding="utf-8")] and
    [json.load(file)] meet: no such file ([FileNotFoundError]), bytes that
    are not UTF-8 ([UnicodeDecodeError]), text that [json.load] rejects
    ([JSONDecodeError]), or the value that [json.load] returns. *)
Inductive source : Type :=
| Missing
| NotUtf8
| NotJson
| Parsed (j : json).

Definition json_load (src : source) : result json :=
  match src with
  | Missing => Raise FileNotFoundError
  | NotUtf8 => Raise UnicodeDecodeError
  | NotJson => Raise JSONDecodeError
  | Parsed j => Ok j
  end.

(** [d[k]] on a dict held as the list of its items (the keys of a dict are
    distinct; would a key be listed twice, the first entry counts). *)
Fixpoint assoc (k : string) (kvs : list (string * json)) : option json :=
  match kvs with
  | [] => None
  | (k', v) :: kvs' => if decide (k' = k) then Some v else assoc k kvs'
  end.

(** [j[k]] for a string key [k]: only a dict can be subscripted so. *)
Definition py_getitem (j : json) (k : string) : result json :=
  match j with
  | JObj kvs => match assoc k kvs with
                | Some v => Ok v
                | None => Raise (KeyError k)
                end
  | _ => Raise TypeError
  end.

Fixpoint chars (s : string) : list json :=
  match s with
  | EmptyString => []
  | String c s' => JStr (String c EmptyString) :: chars s'
  end.

(** [for x in j]: a list gives its elements, a dict its keys, a string its
    characters (here one per byte; each is a string in any case); the other
    values are not iterable. *)
Definition py_iter (j : json) : result (list json) :=
  match j with
  | JArr l => Ok l
  | JObj kvs => Ok (map (λ kv, JStr (fst kv)) kvs)
  | JStr s => Ok (chars s)
  | _ => Raise TypeError
  end.

(** The values that [+] adds to a number: [int], [float] and [bool]. *)
Definition numeric (j : json) : bool :=
  match j with
  | JBool _ | JInt _ | JFloat _ _ => true
  | _ => false
  end.

(** No lone surrogate in the string: no byte 237 with a byte from 160 on
    after it.  These are the strings that the UTF-8 encoder of a file
    accepts. *)
Fixpoint surrogate_free (s : string) : bool :=
  match s with
  | EmptyString => true
  | String c s' =>
      match s' with
      | EmptyString => true
      | String c' _ =>
          negb ((nat_of_ascii c =? 237)%nat && (160 <=? nat_of_ascii c')%nat)
          && surrogate_free s'
      end
  end.

(** The values that [json.dump(..., ensure_ascii=False)] can write to a file
    opened with [encoding="utf-8"]: no string in them, key or value, has a
    lone surrogate. *)
Fixpoint encodable (j : json) : bool :=
  match j with
  | JStr s => surrogate_free s
  | JArr l => forallb encodable l
  | JObj kvs => forallb (λ kv, match kv with
                               | (k, v) => surrogate_free k && encodable v
                               end) kvs
  | _ => true
  end.

Definition as_int (j : json) : result Z :=
  match j with JInt z => Ok z | _ => IllTyped end.

Definition as_str (j : json) : result string :=
  match j with JStr s => Ok s | _ => IllTyped end.

(** ** class MenuItem *)

Module MenuItem.
Record t : Type := new { name : string; price : json; category : string }.

(** The dict written by [to_dict] for one line of an order. *)
Definition to_dict (item : t) : json :=
  JObj [("name", JStr (name item)); ("price", price item);
        ("category", JStr (category item))].

(** [MenuItem(d["name"], d["price"], d["category"])], as both loaders
    build it. *)
Definition of_dict (d : json) : result t :=
  n ← py_getitem d "name";
  p ← py_getitem d "price";
  c ← py_getitem d "category";
  n' ← as_str n;
  c' ← as_str c;
  mret (new n' p c').
End MenuItem.

(** ** What the program prints *)

(** One constructor for each [print] of [main.py], with the values that the
    text is formatted from.  The total of an order is a sum of numbers that
    may be floats; [OrderTotal] carries the summands. *)

(** The questions asked through [input]. *)
Inductive prompt : Type :=
| AskAction | AskTable | AskCustomer | AskCategory | AskDish | AskTableNumber.

Inductive Msg : Type :=
| MenuLoaded | MenuFileNotFound | MenuReadError
| MenuHeader | ItemLine (item : MenuItem.t)
| OrderEmpty | OrderHeader (table_number : Z) (customer_name : string)
| OrderTotal (prices : list json)
| TableNotExist (table_number : Z)
| TableOccupied (table_number : Z)
| OrderCreated (table_number : Z) (customer_name : string)
| OrderNotFound (table_number : Z)
| ItemAdded (item_name : string) (table_number : Z)
| ItemNotInMenu (item_name : string)
| ItemRemoved (item_name : string) (table_number : Z)
| OrderCancelled (table_number : Z)
| AvailableTables (tables : list Z)
| OrdersSaved | OrdersLoaded | OrdersFileNotFound | OrdersReadError
| NoCategories | ChooseCategory
| CategoryLetter (i : nat) (category : string)
| CategoryNumber (i : nat) (category : string)
| InvalidChoice
| TableMustBeNumber
| ChooseDish (category : string)
| DishLine (i : nat) (item : MenuItem.t)
| CategorySkipped
| MainMenu | Exiting | InvalidAction
| Prompt (p : prompt).

(** ** class Menu *)

Module Menu.
Record t : Type := mk { items : list MenuItem.t }.

Definition init : t := mk [].

(** The body of the [try]: the comprehension is built before [self.items]
    is assigned, so an exception leaves the menu as it was. *)
Definition load_menu_body (src : source) : result (list MenuItem.t) :=
  menu_data ← json_load src;
  l ← py_iter menu_data;
  mapM MenuItem.of_dict l.

Definition load_menu (self : t) (src : source) : t * list Msg * result unit :=
  match load_menu_body src with
  | Ok l => (mk l, [MenuLoaded], Ok ())
  | Raise FileNotFoundError => (self, [MenuFileNotFound], Ok ())
  | Raise JSONDecodeError => (self, [MenuReadError], Ok ())
  | Raise e => (self, [], Raise e)
  | IllTyped => (self, [], IllTyped)
  end.

Definition show_menu (self : t) (category : option string) : list Msg :=
  MenuHeader ::
  map ItemLine
    (List.filter (λ item, match category with
                          | None => true
                          | Some c => bool_decide (MenuItem.category item = c)
                          end) (items self)).

Definition get_items_by_category (self : t) (category : string)
  : list MenuItem.t :=
  filter (λ item, MenuItem.category item = category) (items self).

Fixpoint find_by_name (l : list MenuItem.t) (name : string)
  : option MenuItem.t :=
  match l with
  | [] => None
  | item :: l' =>
      if decide (MenuItem.name item = name) then Some item
      else find_by_name l' name
  end.

Definition get_item_by_name (self : t) (name : string) : option MenuItem.t :=
  find_by_name (items self) name.

Fixpoint categories_loop (l : list MenuItem.t) (categories : list string)
  (seen : gset string) : list string :=
  match l with
  | [] => categories
  | item :: l' =>
      if decide (MenuItem.category item ∉ seen)
      then categories_loop l' (categories ++ [MenuItem.category item])
                           ({[MenuItem.category item]} ∪ seen)
      else categories_loop l' categories seen
  end.

Definition get_categories (self : t) : list string :=
  categories_loop (items self) [] ∅.
End Menu.

(** ** class Order *)

Module Order.
Record t : Type :=
  mk { table_number : Z; customer_name : string; items : list MenuItem.t }.

Definition new (table_number : Z) (customer_name : string) : t :=
  mk table_number customer_name [].

Definition add_item (self : t) (item : MenuItem.t) : t :=
  mk (table_number self) (customer_name self) (items self ++ [item]).

Definition remove_item (self : t) (item_name : string) : t :=
  mk (table_number self) (customer_name self)
     (filter (λ item, MenuItem.name item ≠ item_name) (items self)).

(** [sum(item.price for item in self.items)]: the prices that are added
    up, or [TypeError] when one of them is no number. *)
Definition total_price (self : t) : result (list json) :=
  if forallb numeric (map MenuItem.price (items self))
  then Ok (map MenuItem.price (items self))
  else Raise TypeError.

(** The heading and the lines are printed before the total is computed. *)
Definition show_order (self : t) : list Msg * result unit :=
  match items self with
  | [] => ([OrderEmpty], Ok ())
  | _ =>
      let lines := OrderHeader (table_number self) (customer_name self)
                   :: map ItemLine (items self) in
      match total_price self with
      | Ok prices => (lines ++ [OrderTotal prices], Ok ())
      | Raise e => (lines, Raise e)
      | IllTyped => (lines, IllTyped)
      end
  end.

Definition clear_order (self : t) : t :=
  mk (table_number self) (customer_name self) [].

Definition to_dict (self : t) : json :=
  JObj [("table_number", JInt (table_number self));
        ("customer_name", JStr (customer_name self));
        ("items", JArr (map MenuItem.to_dict (items self)))].
End Order.

(** ** class Restaurant *)

Module Restaurant.
Record t : Type :=
  mk { menu : Menu.t; orders : gmap Z Order.t; available_tables : gset Z }.

(** The tables of the restaurant, as [__init__] lists them. *)
Definition universe : gset Z := {[1; 2; 3; 4; 5]}.

Definition init : t := mk Menu.init ∅ universe.

Definition load_menu (self : t) (src : source) : t * list Msg * result unit :=
  let '(m, out, r) := Menu.load_menu (menu self) src in
  (mk m (orders self) (available_tables self), out, r).

Definition create_order (self : t) (table_number : Z) (customer_name : string)
  : t * list Msg * bool :=
  if decide (table_number ∉ available_tables self)
  then (self, [TableNotExist table_number], false)
  else match orders self !! table_number with
       | Some _ => (self, [TableOccupied table_number], false)
       | None =>
           (mk (menu self)
               (<[table_number := Order.new table_number customer_name]>
                  (orders self))
               (available_tables self ∖ {[table_number]}),
            [OrderCreated table_number customer_name], true)
       end.

Definition add_to_order (self : t) (table_number : Z) (item_name : string)
  : t * list Msg :=
  match orders self !! table_number with
  | None => (self, [OrderNotFound table_number])
  | Some order =>
      match Menu.get_item_by_name (menu self) item_name with
      | Some item =>
          (mk (menu self)
              (<[table_number := Order.add_item order item]> (orders self))
              (available_tables self),
           [ItemAdded item_name table_number])
      | None => (self, [ItemNotInMenu item_name])
      end
  end.

Definition remove_from_order (self : t) (table_number : Z)
  (item_name : string) : t * list Msg :=
  match orders self !! table_number with
  | None => (self, [OrderNotFound table_number])
  | Some order =>
      (mk (menu self)
          (<[table_number := Order.remove_item order item_name]>
             (orders self))
          (available_tables self),
       [ItemRemoved item_name table_number])
  end.

Definition show_order (self : t) (table_number : Z)
  : list Msg * result unit :=
  match orders self !! table_number with
  | None => ([OrderNotFound table_number], Ok ())
  | Some order => Order.show_order order
  end.

(** [clear_order] empties the order object just before [del] drops it. *)
Definition cancel_order (self : t) (table_number : Z) : t * list Msg :=
  match orders self !! table_number with
  | None => (self, [OrderNotFound table_number])
  | Some order =>
      (mk (menu self)
          (delete table_number
             (<[table_number := Order.clear_order order]> (orders self)))
          ({[table_number]} ∪ available_tables self),
       [OrderCancelled table_number])
  end.

Definition show_available_tables (self : t) : list Msg :=
  [AvailableTables (merge_sort Z.le (elements (available_tables self)))].

(** The list [orders_data] that [save_orders] dumps: one record for each
    order.  Python walks the dict in insertion order, which the map does not
    keep; here the records come in the order of [map_to_list]. *)
Definition orders_data (self : t) : json :=
  JArr (map (λ kv, Order.to_dict (snd kv)) (map_to_list (orders self))).

(** [save_orders] overwrites the file; the first component is what a later
    [open]/[json.load] of it delivers.  [open(filename, "w")] empties the
    file and [json.dump] writes the text piece by piece: at a string with a
    lone surrogate the encoder of the file raises [UnicodeEncodeError], and
    the file is left with the pieces before it, an array that is not closed,
    which [json.load] rejects. *)
Definition save_orders (self : t) : source * list Msg * result unit :=
  if encodable (orders_data self)
  then (Parsed (orders_data self), [OrdersSaved], Ok ())
  else (NotJson, [], Raise UnicodeEncodeError).

Fixpoint load_items (order : Order.t) (l : list json) : result Order.t :=
  match l with
  | [] => Ok order
  | item_data :: l' =>
      item ← MenuItem.of_dict item_data;
      load_items (Order.add_item order item) l'
  end.

(** One turn of the outer [for] of [load_orders]. *)
Definition load_order (self : t) (order_data : json) : result t :=
  tn ← py_getitem order_data "table_number";
  cn ← py_getitem order_data "customer_name";
  table_number ← as_int tn;
  customer_name ← as_str cn;
  its ← py_getitem order_data "items";
  l ← py_iter its;
  order ← load_items (Order.new table_number customer_name) l;
  mret (mk (menu self)
           (<[table_number := order]> (orders self))
           (available_tables self ∖ {[table_number]})).

(** The outer [for]: what was stored before an exception stays stored. *)
Fixpoint load_loop (self : t) (l : list json) : t * result unit :=
  match l with
  | [] => (self, Ok ())
  | order_data :: l' =>
      match load_order self order_data with
      | Ok self' => load_loop self' l'
      | Raise e => (self, Raise e)
      | IllTyped => (self, IllTyped)
      end
  end.

Definition load_orders_body (self : t) (src : source) : t * result unit :=
  match json_load src with
  | Ok orders_data =>
      match py_iter orders_data with
      | Ok l => load_loop self l
      | Raise e => (self, Raise e)
      | IllTyped => (self, IllTyped)
      end
  | Raise e => (self, Raise e)
  | IllTyped => (self, IllTyped)
  end.

Definition load_orders (self : t) (src : source) : t * list Msg * result unit :=
  match load_orders_body self src with
  | (self', Ok _) => (self', [OrdersLoaded], Ok ())
  | (self', Raise FileNotFoundError) => (self', [OrdersFileNotFound], Ok ())
  | (self', Raise JSONDecodeError) => (self', [OrdersReadError], Ok ())
  | (self', Raise e) => (self', [], Raise e)
  | (self', IllTyped) => (self', [], IllTyped)
  end.
End Restaurant.

(** ** Runs of the order book *)

(** The public operations that change the state. *)
Inductive op : Type :=
| LoadMenu (src : source)
| CreateOrder (table_number : Z) (customer_name : string)
| AddToOrder (table_number : Z) (item_name : string)
| RemoveFromOrder (table_number : Z) (item_name : string)
| CancelOrder (table_number : Z)
| LoadOrders (src : source).

(** The state after an operation that returns to its caller; [None] when it
    raises (or leaves the annotated types). *)
Definition exec (self : Restaurant.t) (o : op) : option Restaurant.t :=
  match o with
  | LoadMenu src =>
      match Restaurant.load_menu self src with
      | (self', _, Ok _) => Some self'
      | _ => None
      end
  | CreateOrder t n => Some (fst (fst (Restaurant.create_order self t n)))
  | AddToOrder t n => Some (fst (Restaurant.add_to_order self t n))
  | RemoveFromOrder t n => Some (fst (Restaurant.remove_from_order self t n))
  | CancelOrder t => Some (fst (Restaurant.cancel_order self t))
  | LoadOrders src =>
      match Restaurant.load_orders self src with
      | (self', _, Ok _) => Some self'
      | _ => None
      end
  end.

(** States reached from [Restaurant()] by operations taken from [P]. *)
Inductive reachable_by (P : op → Prop) : Restaurant.t → Prop :=
| reachable_init : reachable_by P Restaurant.init
| reachable_step self o self' :
    reachable_by P self → P o → exec self o = Some self' →
    reachable_by P self'.

Definition reachable : Restaurant.t → Prop := reachable_by (λ _, True).

(** An orders file whose records name tables of the restaurant only: the
    table number of each entry that has one is an [int] of [universe]. *)
Definition names_known_tables (src : source) : Prop :=
  match src with
  | Parsed j =>
      match py_iter j with
      | Ok l => Forall (λ order_data,
                  ∀ v, py_getitem order_data "table_number" = Ok v →
                       ∃ z, v = JInt z ∧ z ∈ Restaurant.universe) l
      | _ => True
      end
  | _ => True
  end.

Definition known_tables_only (o : op) : Prop :=
  match o with
  | LoadOrders src => names_known_tables src
  | _ => True
  end.

(** The table invariant of the order book. *)
Definition tables_invariant (self : Restaurant.t) : Prop :=
  dom (Restaurant.orders self) ## Restaurant.available_tables self
  ∧ (dom (Restaurant.orders self) ∪ Restaurant.available_tables self
     = Restaurant.universe)
  ∧ ∀ t : Z, t ∉ Restaurant.universe →
      (t ∉ dom (Restaurant.orders self))
      ∧ (t ∉ Restaurant.available_tables self).

(** ** The console front end *)

(** The program's surroundings: the restaurant object and [orders.json]. *)
Record world : Type :=
  World { restaurant : Restaurant.t; orders_json : source }.

(** A run of a piece of the front end: the lines of standard input left
    unread, the world, the output, and the value returned or exception
    raised. *)
Record outcome (A : Type) : Type :=
  Outcome { unread : list string; after : world;
            printed : list Msg; returned : result A }.
Arguments Outcome {A} unread after printed returned.
Arguments unread {A} o.
Arguments after {A} o.
Arguments printed {A} o.
Arguments returned {A} o.

Definition console (A : Type) : Type := list string → world → outcome A.

#[global] Instance console_ret : MRet console :=
  λ A a stdin w, Outcome stdin w [] (Ok a).
#[global] Instance console_bind : MBind console := λ A B f m stdin w,
  let o := m stdin w in
  match returned o with
  | Ok a => let o' := f a (unread o) (after o) in
            Outcome (unread o') (after o') (printed o ++ printed o')
                    (returned o')
  | Raise e => Outcome (unread o) (after o) (printed o) (Raise e)
  | IllTyped => Outcome (unread o) (after o) (printed o) IllTyped
  end.

Definition print (l : list Msg) : console unit :=
  λ stdin w, Outcome stdin w l (Ok ()).

(** An expression that reads and prints nothing. *)
Definition lift {A : Type} (r : result A) : console A :=
  λ stdin w, Outcome stdin w [] r.

Definition raise {A : Type} (e : exn) : console A := lift (Raise e).

(** [input(p)]: the next line, or [EOFError] at the end of the input. *)
Definition input (p : prompt) : console string := λ stdin w,
  match stdin with
  | [] => Outcome [] w [Prompt p] (Raise EOFError)
  | line :: stdin' => Outcome stdin' w [Prompt p] (Ok line)
  end.

Definition the_restaurant : console Restaurant.t :=
  λ stdin w, Outcome stdin w [] (Ok (restaurant w)).

(** A call of a method of the restaurant object. *)
Definition call {A : Type} (f : Restaurant.t → Restaurant.t * list Msg * A)
  : console A := λ stdin w,
  let '(r, out, a) := f (restaurant w) in
  Outcome stdin (World r (orders_json w)) out (Ok a).

Definition call_ (f : Restaurant.t → Restaurant.t * list Msg) : console unit :=
  call (λ r, (f r, ())).

(** A call of a method that only prints, and may raise. *)
Definition query {A : Type} (f : Restaurant.t → list Msg * result A)
  : console A := λ stdin w,
  let '(out, r) := f (restaurant w) in Outcome stdin w out r.

Definition save_orders : console unit := λ stdin w,
  let '(file, out, r) := Restaurant.save_orders (restaurant w) in
  Outcome stdin (World (restaurant w) file) out r.

(** With the output [out] printed before the run [o]. *)
Definition preceded {A : Type} (out : list Msg) (o : outcome A) : outcome A :=
  Outcome (unread o) (after o) (out ++ printed o) (returned o).

Section Console.
(** The string built-ins of Python that the front end calls:
    [int(s)] ([None] for [ValueError]), [s.strip().upper()],
    [russian_letters.index(s)] when [s in russian_letters], and
    [s.isdigit()]. *)
Variable py_int : string → option Z.
Variable strip_upper : string → string.
Variable letter_index : string → option nat.
Variable isdigit : string → bool.

(** [len(russian_letters)] *)
Definition letters : nat := 28.

Definition category_listing (categories : list string) : list Msg :=
  ChooseCategory ::
  imap (λ i category, if (i <? letters)%nat then CategoryLetter i category
                      else CategoryNumber (i + 1) category) categories.

Definition invalid_choice : list Msg * result (option string) :=
  ([InvalidChoice], Ok None).

(** [show_category_menu] from the test [choice == "0"] on. *)
Definition pick_category (categories : list string) (choice : string)
  : list Msg * result (option string) :=
  if decide (choice = "0") then ([], Ok None)
  else match letter_index choice with
       | Some index =>
           if (index <? length categories)%nat
           then ([], Some <$> py_index categories index)
           else invalid_choice
       | None =>
           if isdigit choice then
             match py_int choice with
             | None => ([], Raise ValueError)
             | Some n =>
                 let index := n - 1 in
                 if ((0 <=? index) && (index <? Z.of_nat (length categories)))%Z
                 then ([], Some <$> py_index categories (Z.to_nat index))
                 else invalid_choice
             end
           else invalid_choice
       end.

Definition show_category_menu : console (option string) := λ stdin w,
  match Menu.get_categories (Restaurant.menu (restaurant w)) with
  | [] => Outcome stdin w [NoCategories] (Ok None)
  | categories =>
      match stdin with
      | [] => Outcome [] w (category_listing categories ++ [Prompt AskCategory])
                      (Raise EOFError)
      | line :: stdin' =>
          let '(out, r) := pick_category categories (strip_upper line) in
          Outcome stdin' w
                  (category_listing categories ++ [Prompt AskCategory] ++ out)
                  r
      end
  end.

Definition dish_listing (category : string) (items : list MenuItem.t)
  : list Msg :=
  ChooseDish category :: imap (λ i item, DishLine (i + 1) item) items.

(** The wizard's handling of the answer to "which dish". *)
Definition choose_dish (table_number : Z) (items : list MenuItem.t)
  (choice : string) : console unit :=
  if isdigit choice then
    match py_int choice with
    | None => raise ValueError
    | Some n =>
        if ((0 <? n) && (n <=? Z.of_nat (length items)))%Z then
          selected_item ← lift (py_index items (Z.to_nat (n - 1)));
          call_ (λ r, Restaurant.add_to_order r table_number
                        (MenuItem.name selected_item))
        else print [CategorySkipped]
    end
  else print [CategorySkipped].

(** The [while True] of the wizard.  Every turn that goes round reads two
    lines, so the loop is written by recursion on the unread input, with
    the reading of [show_category_menu] and of the dish number spelled
    out; [dish_loop_turn] below states it with the pieces put together. *)
Fixpoint dish_loop (table_number : Z) (stdin : list string) (w : world)
  {struct stdin} : outcome unit :=
  match Menu.get_categories (Restaurant.menu (restaurant w)) with
  | [] => Outcome stdin w [NoCategories] (Ok ())
  | categories =>
      let asked := category_listing categories ++ [Prompt AskCategory] in
      match stdin with
      | [] => Outcome [] w asked (Raise EOFError)
      | line :: stdin1 =>
          match pick_category categories (strip_upper line) with
          | (out, Ok None) => Outcome stdin1 w (asked ++ out) (Ok ())
          | (out, Raise e) => Outcome stdin1 w (asked ++ out) (Raise e)
          | (out, IllTyped) => Outcome stdin1 w (asked ++ out) IllTyped
          | (out, Ok (Some category)) =>
              let items :=
                Menu.get_items_by_category (Restaurant.menu (restaurant w))
                                           category in
              let listed := asked ++ out ++ dish_listing category items
                                  ++ [Prompt AskDish] in
              match stdin1 with
              | [] => Outcome [] w listed (Raise EOFError)
              | choice :: stdin2 =>
                  let o := choose_dish table_number items choice stdin2 w in
                  match returned o with
                  | Ok _ => preceded (listed ++ printed o)
                                     (dish_loop table_number stdin2 (after o))
                  | _ => preceded listed o
                  end
              end
          end
      end
  end.

Definition order_creation_wizard : console unit :=
  call_ (λ r, (r, Restaurant.show_available_tables r));;
  line ← input AskTable;
  match py_int line with
  | None => print [TableMustBeNumber]
  | Some table_number =>
      r ← the_restaurant;
      if decide (table_number ∉ Restaurant.available_tables r) then
        match Restaurant.orders r !! table_number with
        | Some _ => print [TableOccupied table_number]
        | None => print [TableNotExist table_number]
        end
      else
        customer_name ← input AskCustomer;
        created ← call (λ r, Restaurant.create_order r table_number
                               customer_name);
        if created : bool then
          dish_loop table_number;;
          save_orders
        else mret ()
  end.

(** One turn of the [while True] of [main]: [true] to go on, [false] after
    [break]. *)
Definition main_turn : console bool :=
  print [MainMenu];;
  choice ← input AskAction;
  if decide (choice = "1") then
    order_creation_wizard;; mret true
  else if decide (choice = "2") then
    category ← show_category_menu;
    match category with
    | Some c => if decide (c = EmptyString) then mret true
                else the_restaurant ≫= λ r,
                     print (Menu.show_menu (Restaurant.menu r) (Some c));;
                     mret true
    | None => mret true
    end
  else if decide (choice = "3") then
    line ← input AskTableNumber;
    match py_int line with
    | None => raise ValueError
    | Some table_number =>
        query (λ r, Restaurant.show_order r table_number);;
        mret true
    end
  else if decide (choice = "4") then
    line ← input AskTableNumber;
    match py_int line with
    | None => raise ValueError
    | Some table_number =>
        call_ (λ r, Restaurant.cancel_order r table_number);;
        save_orders;;
        mret true
    end
  else if decide (choice = "5") then
    call_ (λ r, (r, Restaurant.show_available_tables r));;
    mret true
  else if decide (choice = "6") then
    save_orders;;
    print [Exiting];;
    mret false
  else
    print [InvalidAction];; mret true.
End Console.

(** A plain reading of decimal numerals, [-] allowed in front: the part of
    [int] that the examples below rely on. *)
Fixpoint digits (s : string) (acc : Z) : option Z :=
  match s with
  | EmptyString => Some acc
  | String c s' =>
      let n := Z.of_nat (Ascii.nat_of_ascii c) in
      if ((48 <=? n) && (n <=? 57))%Z then digits s' (10 * acc + (n - 48))
      else None
  end.

Definition decimal (s : string) : option Z :=
  match s with
  | EmptyString => None
  | String "-"%char (String c s') => Z.opp <$> digits (String c s') 0
  | _ => digits s 0
  end.

(** ** [main] *)

Section Main.
Variable py_int : string → option Z.
Variable strip_upper : string → string.
Variable letter_index : string → option nat.
Variable isdigit : string → bool.

(** The [while True] of [main], for [fuel] turns at most: [None] when the
    turns are used up before the loop has ended ([main_loop_ends] below:
    one more turn than there are lines to read is always enough). *)
Fixpoint main_loop (fuel : nat) (stdin : list string) (w : world)
  : option (outcome unit) :=
  match fuel with
  | O => None
  | S fuel' =>
      let o := main_turn py_int strip_upper letter_index isdigit stdin w in
      match returned o with
      | Ok true => preceded (printed o) <$> main_loop fuel' (unread o) (after o)
      | Ok false => Some (Outcome (unread o) (after o) (printed o) (Ok ()))
      | Raise e => Some (Outcome (unread o) (after o) (printed o) (Raise e))
      | IllTyped => Some (Outcome (unread o) (after o) (printed o) IllTyped)
      end
  end.

(** [main]: a new restaurant, the two files loaded, then the loop.  An
    exception of a loader ends [main] before the loop. *)
Definition main (fuel : nat) (menu_json orders_file : source)
  (stdin : list string) : option (outcome unit) :=
  let '(r1, out1, loaded1) :=
    Restaurant.load_menu Restaurant.init menu_json in
  match loaded1 with
  | Ok _ =>
      let '(r2, out2, loaded2) := Restaurant.load_orders r1 orders_file in
      match loaded2 with
      | Ok _ => preceded (out1 ++ out2)
                  <$> main_loop fuel stdin (World r2 orders_file)
      | Raise e => Some (Outcome stdin (World r2 orders_file) (out1 ++ out2)
                                 (Raise e))
      | IllTyped => Some (Outcome stdin (World r2 orders_file) (out1 ++ out2)
                                  IllTyped)
      end
  | Raise e => Some (Outcome stdin (World r1 orders_file) out1 (Raise e))
  | IllTyped => Some (Outcome stdin (World r1 orders_file) out1 IllTyped)
  end.
End Main.

(** ** Files in the format of section 6 of the specification *)

(** An orders file as [save_orders] writes it: an array of order records. *)
Definition orders_document (src : source) : Prop :=
  ∃ l : list Order.t, src = Parsed (JArr (map Order.to_dict l)).

(** A menu file: an array of menu item records. *)
Definition menu_document (src : source) : Prop :=
  ∃ l : list MenuItem.t, src = Parsed (JArr (map MenuItem.to_dict l)).

(** Every order is filed under its own table number, and no occupied table
    is on offer. *)
Definition well_keyed (self : Restaurant.t) : Prop :=
  (∀ t order, Restaurant.orders self !! t = Some order →
              Order.table_number order = t)
  ∧ dom (Restaurant.orders self) ## Restaurant.available_tables self.

(** The state after a list of operations, when none of them raises. *)
Fixpoint run (self : Restaurant.t) (ops : list op) : option Restaurant.t :=
  match ops with
  | [] => Some self
  | o :: ops' => match exec self o with
                 | Some self' => run self' ops'
                 | None => None
                 end
  end.

(** ** Sample data *)

(** The catalog of the end-to-end example of the specification. *)
Definition tea : MenuItem.t := MenuItem.new "Tea" (JInt 2) "Drinks".
Definition soup : MenuItem.t := MenuItem.new "Soup" (JInt 5) "Starters".
Definition cola : MenuItem.t := MenuItem.new "Cola" (JInt 3) "Drinks".
Definition tea_and_soup : source :=
  Parsed (JArr [MenuItem.to_dict tea; MenuItem.to_dict soup]).

(** An orders file with a single, empty order for table 7. *)
Definition table7_file : source :=
  Parsed (JArr [Order.to_dict (Order.new 7 "Eve")]).

(** [Restaurant()] after [load_orders] of that file, and after the
    [cancel_order(7)] that follows. *)
Definition restored7 : Restaurant.t :=
  fst (fst (Restaurant.load_orders Restaurant.init table7_file)).
Definition vacated7 : Restaurant.t :=
  fst (Restaurant.cancel_order restored7 7).

(** The [str] of one lone surrogate, U+D83C: [json.load] delivers it for
    the JSON string with the escape [\ud83c]. *)
Definition lone_surrogate : string :=
  String "237"%char (String "160"%char (String "188"%char EmptyString)).

(** An orders file with an order for table 1 under that name, and
    [Restaurant()] after [load_orders] of it. *)
Definition surrogate_file : source :=
  Parsed (JArr [Order.to_dict (Order.new 1 lone_surrogate)]).
Definition lonely : Restaurant.t :=
  fst (fst (Restaurant.load_orders Restaurant.init surrogate_file)).

(** An orders file whose second entry is the number 5, not a record. *)
Definition broken_file : source :=
  Parsed (JArr [Order.to_dict (Order.new 1 "Alice"); JInt 5]).

(** An orders file with an order of Bob at table 2, and [Restaurant()]
    after [load_orders] of it and [create_order(1, "Alice")]. *)
Definition bob_file : source :=
  Parsed (JArr [Order.to_dict (Order.new 2 "Bob")]).
Definition bob_and_alice : Restaurant.t :=
  default Restaurant.init
    (run Restaurant.init [LoadOrders bob_file; CreateOrder 1 "Alice"]).

(** [Restaurant()] with Alice at table 1. *)
Definition alice_at_1 : Restaurant.t :=
  fst (fst (Restaurant.create_order Restaurant.init 1 "Alice")).

(** [Restaurant()] with the tea-and-soup menu loaded, Alice at table 1 and
    a tea on her order. *)
Definition alice_with_tea : Restaurant.t :=
  default Restaurant.init
    (run Restaurant.init
       [LoadMenu tea_and_soup; CreateOrder 1 "Alice"; AddToOrder 1 "Tea"]).

(** A menu file whose only record has no price. *)
Definition priceless_menu : source :=
  Parsed (JArr [JObj [("name", JStr "Tea")]]).

(** ** Notions for the console front end *)

(** The world [w'] differs from [w] at most in the order of table [t], which
    has got further lines, all of them items of the menu, at its end. *)
Definition appended_to_order (t : Z) (w w' : world) : Prop :=
  orders_json w' = orders_json w
  ∧ Restaurant.menu (restaurant w') = Restaurant.menu (restaurant w)
  ∧ Restaurant.available_tables (restaurant w')
    = Restaurant.available_tables (restaurant w)
  ∧ (∀ t', t' ≠ t →
       Restaurant.orders (restaurant w') !! t'
       = Restaurant.orders (restaurant w) !! t')
  ∧ match Restaurant.orders (restaurant w) !! t with
    | None => Restaurant.orders (restaurant w') !! t = None
    | Some order =>
        ∃ added,
          Restaurant.orders (restaurant w') !! t
          = Some (Order.mk (Order.table_number order)
                           (Order.customer_name order)
                           (Order.items order ++ added))
          ∧ Forall (λ item, item ∈ Menu.items (Restaurant.menu (restaurant w)))
                   added
    end.

(** A piece of the front end that reads its lines from the front of the
    input: what it leaves unread is an end of what it was given. *)
Definition reads_prefix {A : Type} (m : console A) : Prop :=
  ∀ stdin w, unread (m stdin w) `suffix_of` stdin.

(** The file [orders.json] holds the orders in memory. *)
Definition in_sync (w : world) : Prop :=
  orders_json w = Parsed (Restaurant.orders_data (restaurant w)).

(** * Properties *)

(** ** The loaders *)

Lemma of_dict_to_dict (item : MenuItem.t) :
  MenuItem.of_dict (MenuItem.to_dict item) = Ok item.
Proof. by destruct item. Qed.

Lemma load_items_keeps order l order' :
  Restaurant.load_items order l = Ok order' →
  Order.table_number order' = Order.table_number order
  ∧ Order.customer_name order' = Order.customer_name order.
Proof.
  revert order. induction l as [|d l IH]; intros order; simpl.
  - by intros [= <-].
  - destruct (MenuItem.of_dict d) as [item| |]; simpl; [|done..].
    intros H. by destruct (IH _ H).
Qed.

Lemma load_items_to_dict order (l : list MenuItem.t) :
  Restaurant.load_items order (map MenuItem.to_dict l)
  = Ok (Order.mk (Order.table_number order) (Order.customer_name order)
                 (Order.items order ++ l)).
Proof.
  revert order. induction l as [|item l IH]; intros order; simpl.
  - rewrite app_nil_r. by destruct order.
  - destruct item. rewrite IH. simpl. by rewrite <- app_assoc.
Qed.

Lemma load_order_to_dict self (order : Order.t) :
  Restaurant.load_order self (Order.to_dict order)
  = Ok (Restaurant.mk (Restaurant.menu self)
          (<[Order.table_number order := order]> (Restaurant.orders self))
          (Restaurant.available_tables self ∖ {[Order.table_number order]})).
Proof.
  unfold Restaurant.load_order. simpl.
  rewrite load_items_to_dict. simpl. by destruct order.
Qed.

(** What one successful turn of the loop of [load_orders] does. *)
Lemma load_order_Ok self d self' :
  Restaurant.load_order self d = Ok self' →
  ∃ order,
    py_getitem d "table_number" = Ok (JInt (Order.table_number order))
    ∧ self' = Restaurant.mk (Restaurant.menu self)
                (<[Order.table_number order := order]> (Restaurant.orders self))
                (Restaurant.available_tables self
                   ∖ {[Order.table_number order]}).
Proof.
  unfold Restaurant.load_order.
  destruct (py_getitem d "table_number") as [tn| |]; simpl; [|done..].
  destruct (py_getitem d "customer_name") as [cn| |]; simpl; [|done..].
  destruct tn; simpl; try done.
  destruct cn; simpl; try done.
  destruct (py_getitem d "items") as [its| |]; simpl; [|done..].
  destruct (py_iter its) as [l| |]; simpl; [|done..].
  destruct (Restaurant.load_items _ l) as [order| |] eqn:E; simpl; [|done..].
  intros [= <-]. apply load_items_keeps in E as [E _]. simpl in E.
  exists order. by rewrite E.
Qed.

(** The loop of [load_orders] goes through a list of steps of that kind,
    whether it ends or raises. *)
Lemma load_loop_ind (I : Restaurant.t → Prop) (Q : json → Prop) l :
  (∀ self d self', I self → Q d →
     Restaurant.load_order self d = Ok self' → I self') →
  Forall Q l →
  ∀ self, I self → I (fst (Restaurant.load_loop self l)).
Proof.
  intros Hstep. induction 1 as [|d l Hd _ IH]; intros self HI; simpl; [done|].
  destruct (Restaurant.load_order self d) as [self'| |] eqn:E; simpl; eauto.
Qed.

Lemma load_orders_ind (I : Restaurant.t → Prop) (Q : json → Prop) self src :
  (∀ self d self', I self → Q d →
     Restaurant.load_order self d = Ok self' → I self') →
  (∀ j l, src = Parsed j → py_iter j = Ok l → Forall Q l) →
  I self → I (fst (fst (Restaurant.load_orders self src))).
Proof.
  intros Hstep HQ HI.
  assert (I (fst (Restaurant.load_orders_body self src))) as HI'.
  { unfold Restaurant.load_orders_body.
    destruct src as [| | |j]; simpl; try done.
    destruct (py_iter j) as [l| |] eqn:E; simpl; try done.
    eapply load_loop_ind; eauto. }
  unfold Restaurant.load_orders.
  destruct (Restaurant.load_orders_body self src) as [self' [[]|[]|]]; done.
Qed.

(** ** The two invariants, operation by operation *)

Lemma tables_invariant_alt self :
  tables_invariant self ↔
  dom (Restaurant.orders self) ## Restaurant.available_tables self
  ∧ dom (Restaurant.orders self) ∪ Restaurant.available_tables self
    = Restaurant.universe.
Proof.
  unfold tables_invariant. split; [naive_solver|].
  intros [Hd Hu]. repeat split; try done; rewrite <- Hu in *; set_solver.
Qed.

Section Steps.
Context (self : Restaurant.t).
Abbreviation menu := (Restaurant.menu self).
Abbreviation orders := (Restaurant.orders self).
Abbreviation tables := (Restaurant.available_tables self).

(** [self.orders[t] = order] together with the removal of [t] from the
    free tables, as [create_order] and [load_orders] do. *)
Lemma well_keyed_store order :
  well_keyed self →
  well_keyed (Restaurant.mk menu (<[Order.table_number order := order]> orders)
                (tables ∖ {[Order.table_number order]})).
Proof.
  intros [Hk Hd]. split; simpl.
  - intros t o [[<- <-]|[_ ?]]%lookup_insert_Some; eauto.
  - rewrite dom_insert_L. set_solver.
Qed.

Lemma tables_invariant_store order :
  Order.table_number order ∈ Restaurant.universe →
  tables_invariant self →
  tables_invariant
    (Restaurant.mk menu (<[Order.table_number order := order]> orders)
       (tables ∖ {[Order.table_number order]})).
Proof.
  rewrite !tables_invariant_alt. simpl. intros Hin [Hd Hu].
  rewrite dom_insert_L. split; [set_solver|].
  rewrite <- Hu in *. apply set_eq. intros x.
  destruct (decide (x = Order.table_number order)); set_solver.
Qed.

(** A change of the order object of an occupied table. *)
Lemma well_keyed_update t order order' :
  orders !! t = Some order → Order.table_number order' = t →
  well_keyed self →
  well_keyed (Restaurant.mk menu (<[t := order']> orders) tables).
Proof.
  intros Ht Hn [Hk Hd]. split; simpl.
  - intros t' o [[<- <-]|[_ ?]]%lookup_insert_Some; eauto.
  - rewrite dom_insert_lookup_L; eauto.
Qed.

Lemma tables_invariant_update t order order' :
  orders !! t = Some order →
  tables_invariant self →
  tables_invariant (Restaurant.mk menu (<[t := order']> orders) tables).
Proof.
  rewrite !tables_invariant_alt. simpl. intros Ht.
  by rewrite dom_insert_lookup_L by eauto.
Qed.

(** The end of an order: [del self.orders[t]] and [t] free again. *)
Lemma well_keyed_drop t (m : gmap Z Order.t) :
  delete t m = delete t orders →
  well_keyed self →
  well_keyed (Restaurant.mk menu (delete t m) ({[t]} ∪ tables)).
Proof.
  intros -> [Hk Hd]. split; simpl.
  - intros t' o [_ ?]%lookup_delete_Some. eauto.
  - rewrite dom_delete_L. set_solver.
Qed.

Lemma tables_invariant_drop t order (m : gmap Z Order.t) :
  delete t m = delete t orders →
  orders !! t = Some order →
  tables_invariant self →
  tables_invariant (Restaurant.mk menu (delete t m) ({[t]} ∪ tables)).
Proof.
  rewrite !tables_invariant_alt. simpl. intros -> Ht [Hd Hu].
  assert (t ∈ dom orders) by (apply elem_of_dom; eauto).
  rewrite dom_delete_L. split; [set_solver|].
  rewrite <- Hu. apply set_eq. intros x.
  destruct (decide (x = t)); set_solver.
Qed.

(** A table on offer has no order, in a well keyed state. *)
Lemma free_table_has_no_order t :
  well_keyed self → t ∈ tables → orders !! t = None.
Proof. intros [_ Hd] Ht. apply not_elem_of_dom. set_solver. Qed.

Lemma occupied_table_not_free t :
  well_keyed self → t ∈ dom orders → t ∉ tables.
Proof. intros [_ Hd]. set_solver. Qed.

(** The first test of [create_order] on its own. *)
Lemma create_order_not_free t name :
  t ∉ tables →
  Restaurant.create_order self t name = (self, [TableNotExist t], false).
Proof. intros Ht. unfold Restaurant.create_order. by rewrite decide_True. Qed.

Lemma create_order_free t name :
  t ∈ tables → orders !! t = None →
  Restaurant.create_order self t name
  = (Restaurant.mk menu (<[t := Order.new t name]> orders) (tables ∖ {[t]}),
     [OrderCreated t name], true).
Proof.
  intros Ht Hn. unfold Restaurant.create_order.
  rewrite decide_False by (by intros ?). by rewrite Hn.
Qed.

Lemma load_menu_keeps src :
  let self' := fst (fst (Restaurant.load_menu self src)) in
  Restaurant.orders self' = orders
  ∧ Restaurant.available_tables self' = tables.
Proof.
  unfold Restaurant.load_menu.
  by destruct (Menu.load_menu menu src) as [[m out] r].
Qed.
End Steps.

Lemma exec_well_keyed self o self' :
  well_keyed self → exec self o = Some self' → well_keyed self'.
Proof.
  intros Hwk. destruct o as [src|t n|t n|t n|t|src]; simpl.
  - pose proof (load_menu_keeps self src) as [Ho Ht].
    destruct (Restaurant.load_menu self src) as [[s out] [| |]]; [|done..].
    intros [= <-]. simpl in *. unfold well_keyed. by rewrite Ho, Ht.
  - intros [= <-]. unfold Restaurant.create_order.
    case_decide; [done|]. destruct (_ !! t) eqn:E; [done|]. simpl.
    apply (well_keyed_store self (Order.new t n) Hwk).
  - intros [= <-]. unfold Restaurant.add_to_order.
    destruct (_ !! t) as [order|] eqn:E; [|done].
    destruct (Menu.get_item_by_name _ n); [|done]. simpl.
    eapply well_keyed_update; eauto. simpl. by apply Hwk.
  - intros [= <-]. unfold Restaurant.remove_from_order.
    destruct (_ !! t) as [order|] eqn:E; [|done]. simpl.
    eapply well_keyed_update; eauto. simpl. by apply Hwk.
  - intros [= <-]. unfold Restaurant.cancel_order.
    destruct (_ !! t) as [order|] eqn:E; [|done]. simpl.
    apply well_keyed_drop; [|done]. apply delete_insert_eq.
  - pose proof (load_orders_ind well_keyed (λ _, True) self src) as H.
    destruct (Restaurant.load_orders self src) as [[s out] [| |]]; [|done..].
    intros [= <-]. apply H; [|intros; by apply Forall_true|done].
    intros s0 d s1 Hs0 _ (order & _ & ->)%load_order_Ok.
    by apply well_keyed_store.
Qed.

Lemma exec_tables_invariant self o self' :
  known_tables_only o →
  tables_invariant self → exec self o = Some self' → tables_invariant self'.
Proof.
  intros Hk Hinv. destruct o as [src|t n|t n|t n|t|src]; simpl.
  - pose proof (load_menu_keeps self src) as [Ho Ht].
    destruct (Restaurant.load_menu self src) as [[s out] [| |]]; [|done..].
    intros [= <-]. simpl in *. unfold tables_invariant. by rewrite Ho, Ht.
  - intros [= <-]. unfold Restaurant.create_order.
    case_decide as Hfree; [done|]. destruct (_ !! t) eqn:E; [done|]. simpl.
    apply (tables_invariant_store self (Order.new t n)); [|done]. simpl.
    apply tables_invariant_alt in Hinv as [_ <-].
    by apply elem_of_union_r.
  - intros [= <-]. unfold Restaurant.add_to_order.
    destruct (_ !! t) as [order|] eqn:E; [|done].
    destruct (Menu.get_item_by_name _ n); [|done]. simpl.
    eapply tables_invariant_update; eauto.
  - intros [= <-]. unfold Restaurant.remove_from_order.
    destruct (_ !! t) as [order|] eqn:E; [|done]. simpl.
    eapply tables_invariant_update; eauto.
  - intros [= <-]. unfold Restaurant.cancel_order.
    destruct (_ !! t) as [order|] eqn:E; [|done]. simpl.
    eapply tables_invariant_drop; eauto. apply delete_insert_eq.
  - pose proof (load_orders_ind tables_invariant
      (λ d, ∀ v, py_getitem d "table_number" = Ok v →
                 ∃ z, v = JInt z ∧ z ∈ Restaurant.universe) self src) as H.
    destruct (Restaurant.load_orders self src) as [[s out] [| |]]; [|done..].
    intros [= <-]. apply H; [| |done].
    + intros s0 d s1 Hs0 Hd (order & Htn & ->)%load_order_Ok.
      apply tables_invariant_store; [|done].
      by destruct (Hd _ Htn) as (z & [= <-] & Hz).
    + intros j l -> Hl. simpl in Hk. by rewrite Hl in Hk.
Qed.

Lemma init_well_keyed : well_keyed Restaurant.init.
Proof. split; simpl; [by intros t o ?|set_solver]. Qed.

Lemma init_tables_invariant : tables_invariant Restaurant.init.
Proof. apply tables_invariant_alt. simpl. split; set_solver. Qed.

Lemma reachable_by_weaken (P Q : op → Prop) self :
  (∀ o, P o → Q o) → reachable_by P self → reachable_by Q self.
Proof. intros HPQ. induction 1; econstructor; eauto. Qed.

Lemma reachable_well_keyed (P : op → Prop) self :
  reachable_by P self → well_keyed self.
Proof.
  induction 1; eauto using init_well_keyed, exec_well_keyed.
Qed.

Lemma run_reachable (P : op → Prop) ops : ∀ self self',
  reachable_by P self → Forall P ops → run self ops = Some self' →
  reachable_by P self'.
Proof.
  induction ops as [|o ops IH]; intros self self' Hr HP; simpl.
  - by intros [= <-].
  - apply Forall_cons in HP as [Ho HP].
    destruct (exec self o) as [s|] eqn:E; [|done].
    apply IH; [|done]. by eapply reachable_step.
Qed.

(** The reachable states are the states after the sequences of operations
    that return normally. *)
Lemma reachable_by_run (P : op → Prop) self :
  reachable_by P self ↔
  ∃ ops, Forall P ops ∧ run Restaurant.init ops = Some self.
Proof.
  split.
  - assert (∀ ops o s s', run s ops = Some s' →
              run s (ops ++ [o]) = exec s' o) as Hsnoc.
    { induction ops as [|o' ops IH]; intros o s s'; simpl.
      - intros [= ->]. by destruct (exec s' o).
      - destruct (exec s o'); [apply IH|done]. }
    induction 1 as [|s o s' _ (ops & HP & Hrun) Ho Hexec].
    + by exists [].
    + exists (ops ++ [o]). split.
      * apply Forall_app. split; [done|]. by constructor.
      * by rewrite (Hsnoc _ _ _ _ Hrun).
  - intros (ops & HP & Hrun).
    eapply run_reachable; [apply reachable_init|done..].
Qed.

(** The end-to-end example of the specification: after the tea and the
    refused bread, cancelling gives table 1 back. *)
Lemma end_to_end_example :
  run Restaurant.init
    [LoadMenu tea_and_soup; CreateOrder 1 "Alice"; AddToOrder 1 "Tea";
     AddToOrder 1 "Bread"; CancelOrder 1]
  = Some (Restaurant.mk (Menu.mk [tea; soup]) ∅ Restaurant.universe).
Proof. by vm_compute. Qed.

Lemma seven_is_no_table : 7 ∉ Restaurant.universe.
Proof. unfold Restaurant.universe. set_solver. Qed.

Lemma restored7_reachable : reachable restored7.
Proof.
  apply (reachable_step _ Restaurant.init (LoadOrders table7_file));
    [apply reachable_init|done..].
Qed.

Lemma vacated7_reachable : reachable vacated7.
Proof.
  apply (reachable_step _ restored7 (CancelOrder 7));
    [apply restored7_reachable|done..].
Qed.

Lemma alice_at_1_reachable (P : op → Prop) :
  P (CreateOrder 1 "Alice") → reachable_by P alice_at_1.
Proof.
  intros HP.
  by apply (reachable_step _ Restaurant.init (CreateOrder 1 "Alice"));
    [apply reachable_init|..].
Qed.

(** ** The table invariant (C1) *)

(** C1, as amended: after every sequence of [create_order], [add_to_order],
    [remove_from_order], [cancel_order], [load_menu] and [load_orders] from
    [Restaurant()], in which the table number of every entry of every file
    given to [load_orders] is an integer of [{1,2,3,4,5}], the keys of
    [orders] and [available_tables] are disjoint, their union is
    [{1,2,3,4,5}], and no number outside it is in either. *)
Theorem tables_invariant_reachable self :
  reachable_by known_tables_only self → tables_invariant self.
Proof.
  induction 1; eauto using init_tables_invariant, exec_tables_invariant.
Qed.

Lemma bob_and_alice_reachable :
  reachable_by known_tables_only bob_and_alice.
Proof.
  apply (run_reachable _ [LoadOrders bob_file; CreateOrder 1 "Alice"]
           Restaurant.init); [apply reachable_init| |done].
  repeat constructor. simpl. intros v [= <-]. exists 2. split; [done|].
  unfold Restaurant.universe. set_solver.
Qed.

Lemma tables_invariant_reachable_witness :
  reachable_by known_tables_only bob_and_alice
  ∧ Restaurant.orders bob_and_alice !! 2 = Some (Order.new 2 "Bob")
  ∧ tables_invariant bob_and_alice.
Proof.
  split; [apply bob_and_alice_reachable|]. split; [done|].
  apply (tables_invariant_reachable bob_and_alice).
  apply bob_and_alice_reachable.
Defined.

(** C1, as stated, fails: [load_orders] of a file with an order for table 7
    files that order under the key 7, which is outside [{1,2,3,4,5}]. *)
Lemma tables_invariant_broken_by_restore :
  reachable restored7 ∧ ¬ tables_invariant restored7.
Proof.
  split; [apply restored7_reachable|].
  intros (_ & _ & Hout). destruct (Hout 7 seven_is_no_table) as [Hd _].
  apply Hd, elem_of_dom. by eexists.
Qed.

(** ** [create_order] and [cancel_order] (C3, C4, C6) *)

(** C3: in a reachable state, [create_order] on a free table followed by
    [cancel_order] on it gives back the state before [create_order]. *)
Theorem create_then_cancel_restores self t name :
  reachable self → t ∈ Restaurant.available_tables self →
  ∃ mid,
    Restaurant.create_order self t name = (mid, [OrderCreated t name], true)
    ∧ Restaurant.cancel_order mid t = (self, [OrderCancelled t])
    ∧ Restaurant.orders self !! t = None.
Proof.
  intros Hr Ht. apply reachable_well_keyed in Hr.
  pose proof (free_table_has_no_order self t Hr Ht) as Hn.
  eexists. split; [by apply create_order_free|]. split; [|done].
  unfold Restaurant.cancel_order. simpl. rewrite lookup_insert_eq.
  rewrite delete_insert_eq, delete_insert_eq, delete_id by done.
  replace ({[t]} ∪ Restaurant.available_tables self ∖ {[t]})
    with (Restaurant.available_tables self).
  - by destruct self.
  - apply set_eq. intros x. destruct (decide (x = t)); set_solver.
Qed.

Lemma create_then_cancel_restores_witness :
  reachable Restaurant.init ∧ 3 ∈ Restaurant.available_tables Restaurant.init
  ∧ ∃ mid,
      Restaurant.create_order Restaurant.init 3 "Carol"
      = (mid, [OrderCreated 3 "Carol"], true)
      ∧ Restaurant.cancel_order mid 3 = (Restaurant.init, [OrderCancelled 3])
      ∧ Restaurant.orders Restaurant.init !! 3 = None.
Proof.
  assert (3 ∈ Restaurant.available_tables Restaurant.init) as H3
    by (vm_compute; set_solver).
  split; [apply reachable_init|]. split; [exact H3|].
  apply (create_then_cancel_restores Restaurant.init 3 "Carol");
    [apply reachable_init|exact H3].
Defined.

(** C4: the claim asks for the "table occupied" signal on an occupied table;
    [create_order] tests [available_tables] first, so in every reachable
    state an occupied table gets the "no such table" message. *)
Theorem create_order_occupied_says_no_such_table self t name :
  reachable self → t ∈ dom (Restaurant.orders self) →
  Restaurant.create_order self t name = (self, [TableNotExist t], false).
Proof.
  intros Hr Ht. apply reachable_well_keyed in Hr.
  by apply create_order_not_free, occupied_table_not_free.
Qed.

Lemma create_order_occupied_says_no_such_table_witness :
  reachable alice_at_1 ∧ 1 ∈ dom (Restaurant.orders alice_at_1)
  ∧ Restaurant.create_order alice_at_1 1 "Bob"
    = (alice_at_1, [TableNotExist 1], false).
Proof.
  assert (1 ∈ dom (Restaurant.orders alice_at_1)) as H1
    by (apply elem_of_dom; by eexists).
  split; [by apply alice_at_1_reachable|]. split; [exact H1|].
  apply (create_order_occupied_says_no_such_table alice_at_1 1 "Bob");
    [by apply alice_at_1_reachable|exact H1].
Defined.

(** The "table occupied" message of [create_order] is never printed in a
    reachable state. *)
Lemma create_order_never_says_occupied self t name :
  reachable self →
  TableOccupied t ∉ snd (fst (Restaurant.create_order self t name)).
Proof.
  intros Hr%reachable_well_keyed. unfold Restaurant.create_order.
  case_decide as Hfree; simpl.
  - intros Hin. apply elem_of_cons in Hin as [[=]|Hin].
    by apply elem_of_nil in Hin.
  - rewrite (free_table_has_no_order self t Hr Hfree). simpl.
    intros Hin. apply elem_of_cons in Hin as [[=]|Hin].
    by apply elem_of_nil in Hin.
Qed.

(** C6, as amended: [create_order] returns [False] and changes nothing on an
    occupied table in every reachable state, and on a number outside
    [{1,2,3,4,5}] in every state reached by loading only orders files in
    which every table number is an integer of [{1,2,3,4,5}]. *)
Theorem create_order_refused self t name :
  (reachable self ∧ t ∈ dom (Restaurant.orders self))
  ∨ (reachable_by known_tables_only self ∧ t ∉ Restaurant.universe) →
  ∃ out, Restaurant.create_order self t name = (self, out, false).
Proof.
  intros [[Hr Ht]|[Hr Ht]]; eexists; apply create_order_not_free.
  - apply occupied_table_not_free; [|done].
    by eapply reachable_well_keyed.
  - assert (tables_invariant self) as (_ & _ & Hout)
      by (induction Hr;
          eauto using init_tables_invariant, exec_tables_invariant).
    by destruct (Hout t Ht).
Qed.

Lemma create_order_refused_witness :
  ((reachable alice_at_1 ∧ 1 ∈ dom (Restaurant.orders alice_at_1))
   ∨ (reachable_by known_tables_only alice_at_1 ∧ 1 ∉ Restaurant.universe))
  ∧ ((reachable alice_at_1 ∧ 9 ∈ dom (Restaurant.orders alice_at_1))
     ∨ (reachable_by known_tables_only alice_at_1 ∧ 9 ∉ Restaurant.universe))
  ∧ (∃ out, Restaurant.create_order alice_at_1 1 "Bob"
            = (alice_at_1, out, false))
  ∧ (∃ out, Restaurant.create_order alice_at_1 9 "Bob"
            = (alice_at_1, out, false)).
Proof.
  assert ((reachable alice_at_1 ∧ 1 ∈ dom (Restaurant.orders alice_at_1))
   ∨ (reachable_by known_tables_only alice_at_1 ∧ 1 ∉ Restaurant.universe))
    as H1.
  { left. split; [by apply alice_at_1_reachable|].
    apply elem_of_dom. by eexists. }
  assert ((reachable alice_at_1 ∧ 9 ∈ dom (Restaurant.orders alice_at_1))
   ∨ (reachable_by known_tables_only alice_at_1 ∧ 9 ∉ Restaurant.universe))
    as H9.
  { right. split; [by apply alice_at_1_reachable|].
    unfold Restaurant.universe. set_solver. }
  split; [exact H1|]. split; [exact H9|]. split.
  - exact (create_order_refused alice_at_1 1 "Bob" H1).
  - exact (create_order_refused alice_at_1 9 "Bob" H9).
Defined.

(** C6, as stated, fails: after [load_orders] of a file with an order for
    table 7 and [cancel_order(7)], the number 7 is in [available_tables], and
    [create_order(7, ...)] succeeds although 7 is outside [{1,2,3,4,5}]. *)
Lemma create_order_outside_universe_succeeds :
  reachable vacated7 ∧ (7 ∉ Restaurant.universe)
  ∧ snd (Restaurant.create_order vacated7 7 "Eve") = true
  ∧ fst (fst (Restaurant.create_order vacated7 7 "Eve")) ≠ vacated7.
Proof.
  split; [apply vacated7_reachable|]. split; [apply seven_is_no_table|].
  split; [done|]. intros H.
  apply (f_equal (λ s, Restaurant.orders s !! 7)) in H. by vm_compute in H.
Qed.


(** ** [save_orders] then [load_orders] (C2) *)

Lemma load_loop_to_dict (l : list Order.t) : ∀ self,
  Restaurant.load_loop self (map Order.to_dict l)
  = (Restaurant.mk (Restaurant.menu self)
       (foldl (λ m o, <[Order.table_number o := o]> m)
              (Restaurant.orders self) l)
       (Restaurant.available_tables self
          ∖ list_to_set (Order.table_number <$> l)),
     Ok ()).
Proof.
  induction l as [|o l IH]; intros self.
  - simpl. destruct self; simpl. do 2 f_equal. set_solver.
  - cbn [map Restaurant.load_loop]. rewrite load_order_to_dict, IH. simpl.
    do 2 f_equal. set_solver.
Qed.

(** Storing, one after the other, the entries of a list without repeated
    keys amounts to [list_to_map]. *)
Lemma foldl_store (kvs : list (Z * Order.t)) : ∀ m0 : gmap Z Order.t,
  NoDup kvs.*1 →
  Forall (λ kv, Order.table_number kv.2 = kv.1) kvs →
  foldl (λ m o, <[Order.table_number o := o]> m) m0 kvs.*2
  = list_to_map kvs ∪ m0.
Proof.
  induction kvs as [|[k o] kvs IH]; intros m0 Hnd Hk; simpl.
  - by rewrite (left_id_L ∅ (∪)).
  - apply NoDup_cons in Hnd as [Hnotin Hnd].
    apply Forall_cons in Hk as [Hko Hk]. simpl in Hko. subst k.
    rewrite IH by done.
    rewrite <- insert_union_l, insert_union_r; [done|].
    by apply not_elem_of_list_to_map_1.
Qed.

Lemma orders_data_alt self :
  Restaurant.orders_data self
  = JArr (map Order.to_dict (map_to_list (Restaurant.orders self)).*2).
Proof. unfold Restaurant.orders_data. by rewrite <- list_fmap_compose. Qed.

(** [save_orders] returns normally exactly when no string of the orders has
    a lone surrogate, and then it has written the records of the orders. *)
Lemma save_orders_Ok self file out :
  Restaurant.save_orders self = (file, out, Ok ()) ↔
  encodable (Restaurant.orders_data self) = true
  ∧ file = Parsed (Restaurant.orders_data self) ∧ out = [OrdersSaved].
Proof.
  unfold Restaurant.save_orders.
  destruct (encodable _); split; try done.
  - by intros [= <- <-].
  - by intros (_ & -> & ->).
  - by intros (? & _).
Qed.

Lemma save_orders_cases self :
  Restaurant.save_orders self
  = (Parsed (Restaurant.orders_data self), [OrdersSaved], Ok ())
  ∨ Restaurant.save_orders self = (NotJson, [], Raise UnicodeEncodeError).
Proof. unfold Restaurant.save_orders. destruct (encodable _); eauto. Qed.

(** C2, as amended: for a reachable state on which [save_orders] returns
    normally, [load_orders] of what it wrote, run on a fresh restaurant,
    prints the success message, raises nothing, and gives the same [orders]
    (tables, customer names, items) and, as [available_tables],
    [{1,2,3,4,5}] without the tables of these orders. *)
Theorem persist_then_restore self (m : Menu.t) file out :
  reachable self →
  Restaurant.save_orders self = (file, out, Ok ()) →
  Restaurant.load_orders (Restaurant.mk m ∅ Restaurant.universe) file
  = (Restaurant.mk m (Restaurant.orders self)
                   (Restaurant.universe ∖ dom (Restaurant.orders self)),
     [OrdersLoaded], Ok ()).
Proof.
  intros [Hk _]%reachable_well_keyed (_ & -> & _)%save_orders_Ok.
  unfold Restaurant.load_orders, Restaurant.load_orders_body.
  cbn [json_load]. rewrite orders_data_alt. cbn [py_iter].
  rewrite load_loop_to_dict. simpl.
  assert (Forall (λ kv, Order.table_number kv.2 = kv.1)
                 (map_to_list (Restaurant.orders self))) as Hkeys.
  { apply Forall_forall. intros [t o] Hin. simpl.
    by apply Hk, elem_of_map_to_list. }
  rewrite foldl_store by (done || apply NoDup_fst_map_to_list).
  rewrite list_to_map_to_list, (right_id_L ∅ (∪)).
  replace (Order.table_number <$> (map_to_list (Restaurant.orders self)).*2)
    with (map_to_list (Restaurant.orders self)).*1.
  - do 3 f_equal. apply set_eq. intros x. rewrite !elem_of_difference.
    by rewrite dom_alt.
  - rewrite <- list_fmap_compose. apply list_fmap_ext.
    intros i [t o] Hi%list_elem_of_lookup_2. simpl.
    symmetry. by apply Hk, elem_of_map_to_list.
Qed.

Lemma lonely_reachable : reachable lonely.
Proof.
  apply (reachable_step _ Restaurant.init (LoadOrders surrogate_file));
    [apply reachable_init|done..].
Qed.

(** C2, as stated, fails: an order whose customer name is a lone surrogate,
    as [load_orders] stores it from a file with the escape [\ud83c], makes
    [save_orders] raise [UnicodeEncodeError]; the file it leaves is rejected
    by [load_orders], and the fresh restaurant has no order at all. *)
Lemma persist_fails_on_lone_surrogate :
  reachable lonely
  ∧ Restaurant.orders lonely !! 1 = Some (Order.new 1 lone_surrogate)
  ∧ Restaurant.save_orders lonely = (NotJson, [], Raise UnicodeEncodeError)
  ∧ Restaurant.load_orders Restaurant.init
      (fst (fst (Restaurant.save_orders lonely)))
    = (Restaurant.init, [OrdersReadError], Ok ())
  ∧ Restaurant.orders Restaurant.init !! 1 = None.
Proof. split; [apply lonely_reachable|]. by vm_compute. Qed.

(** The files that the program writes keep the table invariant when they
    are loaded again: they name the tables of the orders, which are tables
    of the restaurant. *)
Lemma save_orders_names_known_tables self :
  well_keyed self → tables_invariant self →
  names_known_tables (fst (fst (Restaurant.save_orders self))).
Proof.
  intros [Hk _] [_ [Hu _]].
  destruct (save_orders_cases self) as [-> | ->]; [|done]. cbn [fst].
  unfold names_known_tables, Restaurant.orders_data. cbn [py_iter].
  apply Forall_forall. intros d Hd v.
  apply list_elem_of_fmap in Hd as [[t o] [-> Hin]].
  apply elem_of_map_to_list in Hin. simpl. intros [= <-].
  eexists. split; [done|]. rewrite (Hk t o Hin), <- Hu.
  apply elem_of_union_l, elem_of_dom. by eexists.
Qed.

Lemma alice_with_tea_reachable : reachable alice_with_tea.
Proof.
  apply (run_reachable _
           [LoadMenu tea_and_soup; CreateOrder 1 "Alice"; AddToOrder 1 "Tea"]
           Restaurant.init);
    [apply reachable_init|by repeat constructor|done].
Qed.

Lemma persist_then_restore_witness :
  reachable alice_with_tea
  ∧ Restaurant.save_orders alice_with_tea
    = (Parsed (JArr [Order.to_dict (Order.mk 1 "Alice" [tea])]),
       [OrdersSaved], Ok ())
  ∧ Restaurant.load_orders Restaurant.init
      (Parsed (JArr [Order.to_dict (Order.mk 1 "Alice" [tea])]))
    = (Restaurant.mk Menu.init (Restaurant.orders alice_with_tea)
         (Restaurant.universe ∖ dom (Restaurant.orders alice_with_tea)),
       [OrdersLoaded], Ok ()).
Proof.
  assert (Restaurant.save_orders alice_with_tea
    = (Parsed (JArr [Order.to_dict (Order.mk 1 "Alice" [tea])]),
       [OrdersSaved], Ok ())) as Hsave by (by vm_compute).
  split; [apply alice_with_tea_reachable|]. split; [exact Hsave|].
  apply (persist_then_restore alice_with_tea Menu.init _ [OrdersSaved]);
    [apply alice_with_tea_reachable|exact Hsave].
Defined.

(** ** Loading from a missing or damaged file (C5) *)

Lemma py_getitem_raises d k e :
  py_getitem d k = Raise e → e = TypeError ∨ ∃ k', e = KeyError k'.
Proof.
  unfold py_getitem. repeat case_match; intros [= <-]; eauto.
Qed.

Lemma py_iter_raises d e : py_iter d = Raise e → e = TypeError.
Proof. unfold py_iter. by repeat case_match; intros [= <-]. Qed.

Lemma of_dict_raises d e :
  MenuItem.of_dict d = Raise e → e = TypeError ∨ ∃ k, e = KeyError k.
Proof.
  unfold MenuItem.of_dict.
  destruct (py_getitem d "name") as [n|e1|] eqn:E1; simpl; [| |done].
  2:{ intros [= <-]. by eapply py_getitem_raises. }
  destruct (py_getitem d "price") as [p|e2|] eqn:E2; simpl; [| |done].
  2:{ intros [= <-]. by eapply py_getitem_raises. }
  destruct (py_getitem d "category") as [c|e3|] eqn:E3; simpl; [| |done].
  2:{ intros [= <-]. by eapply py_getitem_raises. }
  destruct (as_str n) as [n'| |] eqn:En; simpl; [|by destruct n|done].
  destruct (as_str c) as [c'| |] eqn:Ec; simpl; [done|by destruct c|done].
Qed.

Lemma load_items_raises l : ∀ order e,
  Restaurant.load_items order l = Raise e →
  e = TypeError ∨ ∃ k, e = KeyError k.
Proof.
  induction l as [|d l IH]; intros order e; simpl; [done|].
  destruct (MenuItem.of_dict d) as [item| |] eqn:E; simpl; [| |done].
  - apply IH.
  - intros [= <-]. by eapply of_dict_raises.
Qed.

(** What [load_order] raises is an error of subscripting or iterating, and
    it does not depend on the state of the restaurant. *)
Lemma load_order_raises self d e :
  Restaurant.load_order self d = Raise e →
  (e = TypeError ∨ ∃ k, e = KeyError k)
  ∧ ∀ self', Restaurant.load_order self' d = Raise e.
Proof.
  unfold Restaurant.load_order.
  destruct (py_getitem d "table_number") as [tn|e1|] eqn:E1; simpl; [| |done].
  2:{ intros [= <-]. split; [by eapply py_getitem_raises|done]. }
  destruct (py_getitem d "customer_name") as [cn|e2|] eqn:E2; simpl;
    [| |done].
  2:{ intros [= <-]. split; [by eapply py_getitem_raises|done]. }
  destruct (as_int tn) as [t| |] eqn:Et; simpl; [|by destruct tn|done].
  destruct (as_str cn) as [c| |] eqn:Ec; simpl; [|by destruct cn|done].
  destruct (py_getitem d "items") as [its|e3|] eqn:E3; simpl; [| |done].
  2:{ intros [= <-]. split; [by eapply py_getitem_raises|done]. }
  destruct (py_iter its) as [l|e4|] eqn:E4; simpl; [| |done].
  2:{ intros [= <-]. split; [left; by eapply py_iter_raises|done]. }
  destruct (Restaurant.load_items _ l) as [order|e5|] eqn:E5; simpl;
    [done| |done].
  intros [= <-]. split; [by eapply load_items_raises|done].
Qed.

(** The loop of [load_orders] raises what [load_order] raises. *)
Lemma load_loop_raises l : ∀ self e,
  snd (Restaurant.load_loop self l) = Raise e →
  e = TypeError ∨ ∃ k, e = KeyError k.
Proof.
  induction l as [|d l IH]; intros self e; simpl; [done|].
  destruct (Restaurant.load_order self d) as [self'| |] eqn:E; simpl;
    [apply IH| |done].
  intros [= <-]. by apply load_order_raises in E as [? _].
Qed.

Lemma mapM_of_dict_raises l e :
  mapM MenuItem.of_dict l = Raise e → e = TypeError ∨ ∃ k, e = KeyError k.
Proof.
  revert e. induction l as [|d l IH]; intros e; [done|].
  cbn [mapM]. fold (mapM MenuItem.of_dict).
  destruct (MenuItem.of_dict d) as [item| |] eqn:E; simpl; [| |done].
  - destruct (mapM MenuItem.of_dict l) as [k| |]; simpl; [done| |done].
    intros [= <-]. by apply IH.
  - intros [= <-]. by eapply of_dict_raises.
Qed.


(** On a missing file, and on text that [json.load] rejects, both loaders
    print their message for it, raise nothing and leave the restaurant as it
    was. *)
Lemma loaders_survive_missing_or_unparsable self src :
  src = Missing ∨ src = NotJson →
  (∃ msg, msg ≠ MenuLoaded
          ∧ Restaurant.load_menu self src = (self, [msg], Ok ()))
  ∧ (∃ msg, msg ≠ OrdersLoaded
            ∧ Restaurant.load_orders self src = (self, [msg], Ok ())).
Proof.
  intros [-> | ->]; destruct self; split; eexists;
    (split; [|reflexivity]); done.
Qed.



Lemma broken_file_is_no_orders_document : ¬ orders_document broken_file.
Proof. by intros [[|o1 [|o2 l]] [=]]. Qed.

Lemma priceless_menu_is_no_menu_document : ¬ menu_document priceless_menu.
Proof. by intros [[|i1 l] [=]]. Qed.


(** Bytes that are not UTF-8 are not met by either [except] clause. *)
Lemma not_utf8_raises self :
  Restaurant.load_orders self NotUtf8 = (self, [], Raise UnicodeDecodeError)
  ∧ Restaurant.load_menu self NotUtf8 = (self, [], Raise UnicodeDecodeError).
Proof. by destruct self. Qed.

(** A file in the format of the orders file is loaded without exception. *)
Lemma orders_document_loads self src :
  orders_document src → snd (Restaurant.load_orders self src) = Ok ().
Proof.
  intros [l ->]. unfold Restaurant.load_orders, Restaurant.load_orders_body.
  cbn [json_load py_iter]. by rewrite load_loop_to_dict.
Qed.

(** ** [Order.remove_item] (C7) *)

Lemma sublist_without (P : MenuItem.t → Prop) `{!∀ x, Decision (P x)}
  (l k : list MenuItem.t) :
  l `sublist_of` k → Forall P l → l `sublist_of` filter P k.
Proof.
  induction 1 as [|x l k _ IH|x l k _ IH]; intros HP.
  - done.
  - apply Forall_cons in HP as [Hx HP].
    rewrite filter_cons_True by done. by constructor; apply IH.
  - rewrite filter_cons. case_decide; [constructor|]; by apply IH.
Qed.

(** C7: [remove_item(n)] leaves no line named [n]; what is left is a
    sublist of the lines (same lines, same relative order, nothing new), and
    every sublist of the lines without a line named [n] is a sublist of what
    is left, so that every line with another name is kept; the table number
    and the customer name stay. *)
Theorem remove_item_removes_all (self : Order.t) (n : string) :
  (∀ item, item ∈ Order.items (Order.remove_item self n) →
           MenuItem.name item ≠ n)
  ∧ Order.items (Order.remove_item self n) `sublist_of` Order.items self
  ∧ (∀ l, l `sublist_of` Order.items self →
          (∀ item, item ∈ l → MenuItem.name item ≠ n) →
          l `sublist_of` Order.items (Order.remove_item self n))
  ∧ Order.table_number (Order.remove_item self n) = Order.table_number self
  ∧ Order.customer_name (Order.remove_item self n) = Order.customer_name self.
Proof.
  simpl. repeat split.
  - by intros item [? _]%list_elem_of_filter.
  - apply sublist_filter.
  - intros l Hl Hn. apply sublist_without; [done|]. by apply Forall_forall.
Qed.

(** Two colas and a tea: removing "Cola" leaves the tea alone. *)
Lemma remove_item_two_colas :
  Order.items
    (Order.remove_item
       (Order.add_item
          (Order.add_item (Order.add_item (Order.new 1 "Alice") cola) tea)
          cola)
       "Cola")
  = [tea].
Proof. reflexivity. Qed.

Lemma remove_item_no_match (self : Order.t) (n : string) :
  (∀ item, item ∈ Order.items self → MenuItem.name item ≠ n) →
  Order.remove_item self n = self.
Proof.
  intros Hn. destruct self as [t c l]. unfold Order.remove_item. simpl in *.
  f_equal. induction l as [|x l IH]; [done|].
  rewrite filter_cons_True by (apply Hn; left).
  f_equal. apply IH. intros item Hin. apply Hn. by right.
Qed.

(** ** [add_to_order] and [remove_from_order] (C8, C10) *)

Lemma find_by_name_None l n :
  (∀ item, item ∈ l → MenuItem.name item ≠ n) → Menu.find_by_name l n = None.
Proof.
  induction l as [|x l IH]; intros Hn; simpl; [done|].
  rewrite decide_False by (apply Hn; left).
  apply IH. intros item Hin. apply Hn. by right.
Qed.

Lemma find_by_name_first l1 item l2 n :
  MenuItem.name item = n →
  (∀ x, x ∈ l1 → MenuItem.name x ≠ n) →
  Menu.find_by_name (l1 ++ item :: l2) n = Some item.
Proof.
  intros Hitem. induction l1 as [|x l1 IH]; intros Hn; simpl.
  - by rewrite decide_True.
  - rewrite decide_False by (apply Hn; left).
    apply IH. intros y Hin. apply Hn. by right.
Qed.

(** C8: [add_to_order] changes nothing and prints "order not found" when
    the table has no order; otherwise it changes nothing and prints "item not
    found" when no item of the menu has the name; otherwise it appends the
    first item of the menu with that name to the order of the table. *)
Theorem add_to_order_cases self t n :
  (Restaurant.orders self !! t = None →
   Restaurant.add_to_order self t n = (self, [OrderNotFound t]))
  ∧ (∀ order, Restaurant.orders self !! t = Some order →
      ((∀ item, item ∈ Menu.items (Restaurant.menu self) →
                MenuItem.name item ≠ n) →
       Restaurant.add_to_order self t n = (self, [ItemNotInMenu n]))
      ∧ (∀ l1 item l2,
           Menu.items (Restaurant.menu self) = l1 ++ item :: l2 →
           MenuItem.name item = n →
           (∀ x, x ∈ l1 → MenuItem.name x ≠ n) →
           Restaurant.add_to_order self t n
           = (Restaurant.mk (Restaurant.menu self)
                (<[t := Order.mk (Order.table_number order)
                                 (Order.customer_name order)
                                 (Order.items order ++ [item])]>
                   (Restaurant.orders self))
                (Restaurant.available_tables self),
              [ItemAdded n t]))).
Proof.
  unfold Restaurant.add_to_order, Menu.get_item_by_name. split.
  - by intros ->.
  - intros order ->. split.
    + intros Hn. by rewrite find_by_name_None.
    + intros l1 item l2 -> Hitem Hn. by rewrite find_by_name_first.
Qed.

(** The end-to-end example of the specification, at the state with Alice at
    table 1 and a tea on her order: bread is not on the menu, table 2 has no
    order, and a soup is appended after the tea. *)
Lemma add_to_order_cases_witness :
  Restaurant.add_to_order alice_with_tea 2 "Soup"
  = (alice_with_tea, [OrderNotFound 2])
  ∧ Restaurant.add_to_order alice_with_tea 1 "Bread"
    = (alice_with_tea, [ItemNotInMenu "Bread"])
  ∧ Restaurant.add_to_order alice_with_tea 1 "Soup"
    = (Restaurant.mk (Restaurant.menu alice_with_tea)
         (<[1 := Order.mk 1 "Alice" [tea; soup]]>
            (Restaurant.orders alice_with_tea))
         (Restaurant.available_tables alice_with_tea),
       [ItemAdded "Soup" 1]).
Proof.
  split; [|split].
  - by apply (add_to_order_cases alice_with_tea 2 "Soup").
  - destruct (add_to_order_cases alice_with_tea 1 "Bread") as [_ H].
    destruct (H (Order.mk 1 "Alice" [tea]) eq_refl) as [Hnone _].
    apply Hnone. intros item Hin. simpl in Hin.
    apply elem_of_cons in Hin as [->|Hin]; [done|].
    apply elem_of_cons in Hin as [->|Hin]; [done|].
    by apply elem_of_nil in Hin.
  - destruct (add_to_order_cases alice_with_tea 1 "Soup") as [_ H].
    destruct (H (Order.mk 1 "Alice" [tea]) eq_refl) as [_ Hsome].
    apply (Hsome [tea] soup []); [done..|].
    intros x Hin. apply elem_of_cons in Hin as [->|Hin]; [done|].
    by apply elem_of_nil in Hin.
Defined.

(** C10: on an occupied table [remove_from_order] prints "removed", whether
    or not a line of the order has the name; it never prints "item not
    found"; when no line has the name the state is unchanged. *)
Theorem remove_from_order_always_reports_removed self t n order :
  Restaurant.orders self !! t = Some order →
  Restaurant.remove_from_order self t n
  = (Restaurant.mk (Restaurant.menu self)
       (<[t := Order.remove_item order n]> (Restaurant.orders self))
       (Restaurant.available_tables self),
     [ItemRemoved n t])
  ∧ (∀ name, ItemNotInMenu name ∉ snd (Restaurant.remove_from_order self t n))
  ∧ ((∀ item, item ∈ Order.items order → MenuItem.name item ≠ n) →
     fst (Restaurant.remove_from_order self t n) = self).
Proof.
  intros Ht. unfold Restaurant.remove_from_order. rewrite Ht. simpl.
  split; [done|]. split.
  - intros name Hin. apply elem_of_cons in Hin as [[=]|Hin].
    by apply elem_of_nil in Hin.
  - intros Hn. rewrite remove_item_no_match by done.
    rewrite insert_id by done. by destruct self.
Qed.

Lemma remove_from_order_always_reports_removed_witness :
  Restaurant.orders alice_with_tea !! 1 = Some (Order.mk 1 "Alice" [tea])
  ∧ Restaurant.remove_from_order alice_with_tea 1 "Soup"
    = (alice_with_tea, [ItemRemoved "Soup" 1]).
Proof.
  split; [done|].
  destruct (remove_from_order_always_reports_removed alice_with_tea 1 "Soup"
              (Order.mk 1 "Alice" [tea]) eq_refl) as (Hout & _ & Hsame).
  rewrite <- Hsame at 2.
  - by rewrite Hout.
  - intros item Hin. apply elem_of_cons in Hin as [->|Hin]; [done|].
    by apply elem_of_nil in Hin.
Defined.

(** Without an order on the table the message is "order not found". *)
Lemma remove_from_order_no_order self t n :
  Restaurant.orders self !! t = None →
  Restaurant.remove_from_order self t n = (self, [OrderNotFound t]).
Proof. intros Ht. unfold Restaurant.remove_from_order. by rewrite Ht. Qed.

(** ** The console front end (C9) *)

Section ConsoleFacts.
Context (py_int : string → option Z) (strip_upper : string → string)
        (letter_index : string → option nat) (isdigit : string → bool).

Abbreviation dish_loop' := (dish_loop py_int strip_upper letter_index isdigit).

Lemma outcome_eq {A} (o o' : outcome A) :
  unread o = unread o' → after o = after o' → printed o = printed o' →
  returned o = returned o' → o = o'.
Proof. destruct o, o'; simpl; congruence. Qed.

Lemma choose_dish_unread table_number items choice stdin w :
  unread (choose_dish py_int isdigit table_number items choice stdin w) = stdin.
Proof.
  unfold choose_dish, call_, call, raise, lift, print, mbind, console_bind.
  repeat (case_match; simpl; try done).
Qed.

(** One turn of the wizard's loop, with its pieces put together. *)
Lemma dish_loop_turn table_number stdin w :
  dish_loop' table_number stdin w
  = (category ← show_category_menu py_int strip_upper letter_index isdigit;
     match category with
     | None => mret ()
     | Some category =>
         r ← the_restaurant;
         let items := Menu.get_items_by_category (Restaurant.menu r) category in
         print (dish_listing category items);;
         choice ← input AskDish;
         choose_dish py_int isdigit table_number items choice;;
         dish_loop' table_number
     end) stdin w.
Proof.
  unfold mbind, console_bind, show_category_menu.
  destruct stdin as [|line stdin1]; cbn [dish_loop];
    destruct (Menu.get_categories _) as [|c cs] eqn:Hc; [done..|].
  set (categories := c :: cs).
  destruct (pick_category _ _ _ categories (strip_upper line))
    as [out [[category|]| |]]; cbn [returned unread after printed];
    try (apply outcome_eq; simpl; by rewrite ?app_nil_r, <- ?app_assoc).
  destruct stdin1 as [|choice stdin2]; cbn [returned unread after printed input the_restaurant print].
  { apply outcome_eq; simpl; by rewrite ?app_nil_r, <- ?app_assoc. }
  pose proof (choose_dish_unread table_number
     (Menu.get_items_by_category (Restaurant.menu (restaurant w)) category)
     choice stdin2 w) as Hu.
  destruct (choose_dish _ _ _ _ _ _ _) as [u a p [x| |]];
    simpl in Hu; subst u; apply outcome_eq; simpl;
    rewrite ?app_nil_r, <- ?app_assoc; simpl; by rewrite <- ?app_assoc.
Qed.

(** C9: the claim asks that a table number that does not parse be rejected
    with a message and without an exception wherever one is read.  At the
    choices "3" (show an order) and "4" (cancel an order) of [main] the
    [int(input(...))] is outside any [try]: [ValueError] leaves [main_turn],
    and with it [main], with no message printed.  The world is unchanged. *)
Theorem main_turn_unparsable_table_number choice line stdin w :
  choice = "3" ∨ choice = "4" → py_int line = None →
  main_turn py_int strip_upper letter_index isdigit (choice :: line :: stdin) w
  = Outcome stdin w [MainMenu; Prompt AskAction; Prompt AskTableNumber]
            (Raise ValueError).
Proof.
  intros [-> | ->] Hline; unfold main_turn, mbind, console_bind; simpl;
    by rewrite Hline.
Qed.

(** The wizard, next to it, does what the claim says: a message, a normal
    return, the world unchanged. *)
Lemma wizard_unparsable_table_number line stdin w :
  py_int line = None →
  order_creation_wizard py_int strip_upper letter_index isdigit
    (line :: stdin) w
  = Outcome stdin w
      (Restaurant.show_available_tables (restaurant w)
         ++ [Prompt AskTable; TableMustBeNumber])
      (Ok ()).
Proof.
  intros Hline. unfold order_creation_wizard, mbind, console_bind. simpl.
  rewrite Hline. simpl. by destruct w.
Qed.
End ConsoleFacts.

Lemma main_turn_unparsable_table_number_witness :
  ("4" = "3" ∨ "4" = "4") ∧ decimal "abc" = None
  ∧ main_turn decimal id (λ _, None) (λ _, false) ["4"; "abc"]
      (World alice_at_1 Missing)
    = Outcome [] (World alice_at_1 Missing)
        [MainMenu; Prompt AskAction; Prompt AskTableNumber]
        (Raise ValueError).
Proof.
  split; [by right|]. split; [done|].
  apply (main_turn_unparsable_table_number decimal id (λ _, None) (λ _, false)
           "4" "abc" [] (World alice_at_1 Missing)); [by right|done].
Defined.

(** * Further properties of the code *)

(** ** The menu *)

Lemma categories_loop_elem l : ∀ categories seen x,
  x ∈ Menu.categories_loop l categories seen ↔
  x ∈ categories ∨ ((x ∉ seen) ∧ x ∈ MenuItem.category <$> l).
Proof.
  induction l as [|item l IH]; intros categories seen x; simpl.
  - rewrite elem_of_nil. naive_solver.
  - case_decide as Hseen; rewrite IH, elem_of_cons.
    + rewrite elem_of_app, list_elem_of_singleton, not_elem_of_union,
        not_elem_of_singleton.
      destruct (decide (x = MenuItem.category item)); naive_solver.
    + destruct (decide (x = MenuItem.category item)); naive_solver.
Qed.

Lemma categories_loop_NoDup l : ∀ categories seen,
  NoDup categories → (∀ x, x ∈ categories → x ∈ seen) →
  NoDup (Menu.categories_loop l categories seen).
Proof.
  induction l as [|item l IH]; intros categories seen Hnd Hsub; simpl;
    [done|].
  case_decide as Hseen; apply IH; try done.
  - apply NoDup_app. split; [done|]. split; [|apply NoDup_singleton].
    intros x Hx ->%list_elem_of_singleton. by apply Hseen, Hsub.
  - intros x [Hx| ->%list_elem_of_singleton]%elem_of_app; set_solver.
Qed.

Lemma categories_loop_app l : ∀ l' categories seen,
  Menu.categories_loop (l ++ l') categories seen
  = Menu.categories_loop l' (Menu.categories_loop l categories seen)
      (list_to_set (MenuItem.category <$> l) ∪ seen).
Proof.
  induction l as [|item l IH]; intros l' categories seen; simpl.
  - by rewrite (left_id_L ∅ (∪)).
  - case_decide as Hseen; rewrite IH; f_equal; set_solver.
Qed.

(** X1: [get_categories] lists every category of the menu, each once, and
    nothing else. *)
Theorem get_categories_distinct_and_complete (self : Menu.t) :
  NoDup (Menu.get_categories self)
  ∧ ∀ c, c ∈ Menu.get_categories self ↔
         ∃ item, item ∈ Menu.items self ∧ MenuItem.category item = c.
Proof.
  unfold Menu.get_categories. split.
  - apply categories_loop_NoDup; [constructor|]. by intros x ?%elem_of_nil.
  - intros c. rewrite categories_loop_elem, list_elem_of_fmap, elem_of_nil.
    split.
    + intros [[]|[_ (item & -> & Hin)]]. by exists item.
    + intros (item & Hin & <-). right. split; [set_solver|]. by exists item.
Qed.

(** X2: the categories come in the order of their first appearance: a
    further item at the end of the menu adds its category at the end of the
    list when it is new, and changes nothing otherwise. *)
Theorem get_categories_first_appearance (l : list MenuItem.t)
  (item : MenuItem.t) :
  Menu.get_categories (Menu.mk (l ++ [item]))
  = if decide (MenuItem.category item ∈ Menu.get_categories (Menu.mk l))
    then Menu.get_categories (Menu.mk l)
    else Menu.get_categories (Menu.mk l) ++ [MenuItem.category item].
Proof.
  unfold Menu.get_categories. simpl. rewrite categories_loop_app. simpl.
  assert (MenuItem.category item ∈ Menu.categories_loop l [] ∅
          ↔ MenuItem.category item
            ∈ list_to_set (C:=gset string) (MenuItem.category <$> l) ∪ ∅)
    as Hiff.
  { rewrite categories_loop_elem, elem_of_nil. set_solver. }
  repeat case_decide; naive_solver.
Qed.

(** X3: a category is listed by [get_categories] exactly when
    [get_items_by_category] has a dish to offer for it. *)
Theorem category_listed_iff_has_items (self : Menu.t) (c : string) :
  c ∈ Menu.get_categories self ↔ Menu.get_items_by_category self c ≠ [].
Proof.
  unfold Menu.get_categories, Menu.get_items_by_category.
  rewrite categories_loop_elem, list_elem_of_fmap, elem_of_nil. split.
  - intros [[]|[_ (item & -> & Hin)]] Hnil.
    assert (item ∈ filter (λ i, MenuItem.category i = MenuItem.category item)
                          (Menu.items self)) as Hf
      by (by apply list_elem_of_filter).
    rewrite Hnil in Hf. by apply elem_of_nil in Hf.
  - intros Hne. right. split; [set_solver|].
    destruct (filter _ _) as [|item k] eqn:E; [done|].
    assert (item ∈ filter (λ i, MenuItem.category i = c) (Menu.items self))
      as [Hc Hin]%list_elem_of_filter by (rewrite E; left).
    by exists item.
Qed.

(** X4: [get_item_by_name] finds nothing exactly when no item of the menu
    has the name, and an item it returns is an item of the menu with that
    name. *)
Theorem get_item_by_name_spec (self : Menu.t) (n : string) :
  (Menu.get_item_by_name self n = None ↔
   ∀ item, item ∈ Menu.items self → MenuItem.name item ≠ n)
  ∧ ∀ found, Menu.get_item_by_name self n = Some found →
             found ∈ Menu.items self ∧ MenuItem.name found = n.
Proof.
  unfold Menu.get_item_by_name. destruct self as [l]. simpl.
  induction l as [|x l [IHn IHs]]; simpl.
  - split; [|done]. split; [|done]. by intros _ item ?%elem_of_nil.
  - case_decide as Hx; split.
    + split; [done|]. intros Hn. destruct (Hn x); [left|done].
    + intros found [= <-]. split; [left|done].
    + rewrite IHn. split.
      * intros Hl item [->|Hin]%elem_of_cons; eauto.
      * intros Hl item Hin. apply Hl. by right.
    + intros found [Hin Hname]%IHs. split; [by right|done].
Qed.

Lemma mapM_of_dict_to_dict (l : list MenuItem.t) :
  mapM MenuItem.of_dict (MenuItem.to_dict <$> l) = Ok l.
Proof.
  induction l as [|item l IH]; [done|].
  cbn [fmap list_fmap mapM]. fold (mapM MenuItem.of_dict).
  rewrite of_dict_to_dict. simpl. change (map MenuItem.to_dict l) with
    (MenuItem.to_dict <$> l). by rewrite IH.
Qed.

(** X5: a menu file that holds the records of a list of items replaces the
    menu by exactly these items, in their order, whatever the menu was. *)
Theorem load_menu_replaces_menu (self : Menu.t) (l : list MenuItem.t) :
  Menu.load_menu self (Parsed (JArr (MenuItem.to_dict <$> l)))
  = (Menu.mk l, [MenuLoaded], Ok ()).
Proof.
  unfold Menu.load_menu, Menu.load_menu_body. cbn [json_load py_iter].
  simpl. change (map MenuItem.to_dict l) with (MenuItem.to_dict <$> l).
  by rewrite mapM_of_dict_to_dict.
Qed.

Lemma filter_bool_decide {A} (P : A → Prop) `{!∀ x, Decision (P x)}
  (l : list A) :
  List.filter (λ x, bool_decide (P x)) l = filter P l.
Proof.
  induction l as [|x l IH]; [done|]. simpl. rewrite filter_cons, IH.
  by destruct (decide (P x)); [rewrite bool_decide_true|rewrite bool_decide_false].
Qed.

(** X7: [show_menu] with a category prints, after the heading, one line for
    each dish that [get_items_by_category] returns for it, in the same
    order; without a category it prints every item of the menu. *)
Theorem show_menu_lists_category (self : Menu.t) (c : string) :
  Menu.show_menu self (Some c)
  = MenuHeader :: (ItemLine <$> Menu.get_items_by_category self c)
  ∧ Menu.show_menu self None = MenuHeader :: (ItemLine <$> Menu.items self).
Proof.
  unfold Menu.show_menu, Menu.get_items_by_category. split.
  - by rewrite (filter_bool_decide (λ i, MenuItem.category i = c)).
  - f_equal. f_equal. induction (Menu.items self) as [|x l IH]; [done|].
    simpl. by rewrite IH.
Qed.

(** ** Orders and tables *)

(** X8: in every state reached from [Restaurant()], whatever files were
    loaded on the way, each order is stored under its own table number and
    no table with an order is among the free tables. *)
Theorem reachable_orders_keyed (self : Restaurant.t) :
  reachable self →
  (∀ t order, Restaurant.orders self !! t = Some order →
              Order.table_number order = t)
  ∧ ∀ t, t ∈ dom (Restaurant.orders self) →
         t ∉ Restaurant.available_tables self.
Proof.
  intros Hr. pose proof (reachable_well_keyed _ _ Hr) as Hwk.
  split; [apply Hwk|]. intros t. by apply occupied_table_not_free.
Qed.

Lemma reachable_orders_keyed_witness :
  reachable restored7
  ∧ (∀ t order, Restaurant.orders restored7 !! t = Some order →
                Order.table_number order = t)
  ∧ ∀ t, t ∈ dom (Restaurant.orders restored7) →
         t ∉ Restaurant.available_tables restored7.
Proof.
  split; [apply restored7_reachable|].
  apply (reachable_orders_keyed restored7), restored7_reachable.
Defined.

(** X9: [cancel_order] on an occupied table followed by [create_order] on
    it succeeds in every state: the order of the table is replaced by a new,
    empty one, and the table is not free. *)
Theorem cancel_then_create_replaces_order self t name order :
  Restaurant.orders self !! t = Some order →
  Restaurant.create_order (fst (Restaurant.cancel_order self t)) t name
  = (Restaurant.mk (Restaurant.menu self)
       (<[t := Order.new t name]> (Restaurant.orders self))
       (Restaurant.available_tables self ∖ {[t]}),
     [OrderCreated t name], true).
Proof.
  intros Ht. unfold Restaurant.cancel_order. rewrite Ht. cbn [fst].
  rewrite create_order_free; cbn [Restaurant.menu Restaurant.orders
    Restaurant.available_tables].
  - rewrite insert_delete_eq, insert_insert_eq. do 2 f_equal.
    f_equal. set_solver.
  - set_solver.
  - apply lookup_delete_eq.
Qed.

Lemma cancel_then_create_replaces_order_witness :
  Restaurant.orders alice_with_tea !! 1 = Some (Order.mk 1 "Alice" [tea])
  ∧ Restaurant.create_order (fst (Restaurant.cancel_order alice_with_tea 1))
      1 "Bob"
    = (Restaurant.mk (Restaurant.menu alice_with_tea)
         (<[1 := Order.new 1 "Bob"]> (Restaurant.orders alice_with_tea))
         (Restaurant.available_tables alice_with_tea ∖ {[1]}),
       [OrderCreated 1 "Bob"], true).
Proof.
  split; [done|].
  by apply (cancel_then_create_replaces_order alice_with_tea 1 "Bob"
              (Order.mk 1 "Alice" [tea])).
Defined.

(** X10: [cancel_order] on an occupied table drops the order and adds the
    table to the free ones, leaving the menu and the other orders alone; a
    second [cancel_order] on the table prints "order not found" and changes
    nothing. *)
Theorem cancel_order_twice self t order :
  Restaurant.orders self !! t = Some order →
  Restaurant.cancel_order self t
  = (Restaurant.mk (Restaurant.menu self) (delete t (Restaurant.orders self))
       ({[t]} ∪ Restaurant.available_tables self),
     [OrderCancelled t])
  ∧ Restaurant.cancel_order (fst (Restaurant.cancel_order self t)) t
    = (fst (Restaurant.cancel_order self t), [OrderNotFound t]).
Proof.
  intros Ht. unfold Restaurant.cancel_order at 1 3 4. rewrite Ht. cbn [fst].
  rewrite delete_insert_eq. split; [done|].
  unfold Restaurant.cancel_order. simpl. by rewrite lookup_delete_eq.
Qed.

Lemma cancel_order_twice_witness :
  Restaurant.orders alice_with_tea !! 1 = Some (Order.mk 1 "Alice" [tea])
  ∧ Restaurant.cancel_order (fst (Restaurant.cancel_order alice_with_tea 1)) 1
    = (fst (Restaurant.cancel_order alice_with_tea 1), [OrderNotFound 1]).
Proof.
  split; [done|].
  by apply (cancel_order_twice alice_with_tea 1 (Order.mk 1 "Alice" [tea])).
Defined.

Lemma find_by_name_Some l n item :
  Menu.find_by_name l n = Some item → MenuItem.name item = n ∧ item ∈ l.
Proof.
  induction l as [|x l IH]; simpl; [done|]. case_decide.
  - intros [= <-]. split; [done|left].
  - intros [? ?]%IH. split; [done|by right].
Qed.

Lemma find_by_name_is_Some l n item :
  item ∈ l → MenuItem.name item = n → is_Some (Menu.find_by_name l n).
Proof.
  intros Hin Hn. destruct (Menu.find_by_name l n) eqn:E; [by eexists|].
  exfalso. revert Hin. induction l as [|x l IH]; simpl in *.
  - by intros ?%elem_of_nil.
  - case_decide; [done|]. intros [->|Hin]%elem_of_cons; eauto.
Qed.

(** X11: when the order of a table has no line with a name that is on the
    menu, [add_to_order] of that name followed by [remove_from_order] of it
    gives back the state from before. *)
Theorem add_then_remove_restores self t n order item :
  Restaurant.orders self !! t = Some order →
  (∀ line, line ∈ Order.items order → MenuItem.name line ≠ n) →
  item ∈ Menu.items (Restaurant.menu self) → MenuItem.name item = n →
  snd (Restaurant.add_to_order self t n) = [ItemAdded n t]
  ∧ Restaurant.remove_from_order (fst (Restaurant.add_to_order self t n)) t n
    = (self, [ItemRemoved n t]).
Proof.
  intros Ht Hlines Hin Hname.
  unfold Restaurant.add_to_order, Menu.get_item_by_name. rewrite Ht.
  destruct (find_by_name_is_Some _ _ _ Hin Hname) as [found Hfound].
  rewrite Hfound. apply find_by_name_Some in Hfound as [Hn _].
  split; [done|]. unfold Restaurant.remove_from_order. simpl.
  rewrite lookup_insert_eq, insert_insert_eq. f_equal.
  replace (Order.remove_item (Order.add_item order found) n) with order.
  { rewrite insert_id by done. by destruct self. }
  destruct order as [tn cn l]. unfold Order.remove_item, Order.add_item.
  simpl in *. f_equal. rewrite filter_app, filter_cons_False, filter_nil,
    app_nil_r by (by intros []).
  symmetry. clear Ht. induction l as [|x l IH]; [done|].
  rewrite filter_cons_True by (apply Hlines; left).
  f_equal. apply IH. intros line Hl. apply Hlines. by right.
Qed.

Lemma add_then_remove_restores_witness :
  Restaurant.orders alice_with_tea !! 1 = Some (Order.mk 1 "Alice" [tea])
  ∧ Restaurant.remove_from_order
      (fst (Restaurant.add_to_order alice_with_tea 1 "Soup")) 1 "Soup"
    = (alice_with_tea, [ItemRemoved "Soup" 1]).
Proof.
  split; [done|].
  apply (add_then_remove_restores alice_with_tea 1 "Soup"
           (Order.mk 1 "Alice" [tea]) soup); [done| |by right; left|done].
  intros line [->|[]%elem_of_nil]%elem_of_cons. done.
Defined.

(** X12: removing a name a second time changes nothing more: in every
    state, [remove_from_order] after [remove_from_order] with the same
    arguments leaves the state of the first. *)
Theorem remove_from_order_idempotent self t n :
  fst (Restaurant.remove_from_order
         (fst (Restaurant.remove_from_order self t n)) t n)
  = fst (Restaurant.remove_from_order self t n).
Proof.
  unfold Restaurant.remove_from_order at 2 3.
  destruct (Restaurant.orders self !! t) as [order|] eqn:Ht; cbn [fst].
  - unfold Restaurant.remove_from_order. simpl.
    rewrite lookup_insert_eq, insert_insert_eq. simpl.
    rewrite (remove_item_no_match (Order.remove_item order n)); [done|].
    by intros item [? _]%list_elem_of_filter.
  - unfold Restaurant.remove_from_order. by rewrite Ht.
Qed.

Lemma StronglySorted_le_lt (l : list Z) :
  StronglySorted Z.le l → NoDup l → StronglySorted Z.lt l.
Proof.
  induction 1 as [|x l Hs IH Hall]; intros Hnd; constructor.
  - apply IH. by apply NoDup_cons in Hnd as [_ ?].
  - apply NoDup_cons in Hnd as [Hx _].
    rewrite Forall_forall in *. intros y Hy.
    specialize (Hall y Hy). assert (x ≠ y) by (by intros ->).
    apply Z.le_lteq in Hall as [?| ?]; done.
Qed.

(** X13: [show_available_tables] prints the free tables in strictly
    increasing order: each free table once and nothing else. *)
Theorem show_available_tables_sorted (self : Restaurant.t) :
  ∃ l, Restaurant.show_available_tables self = [AvailableTables l]
       ∧ StronglySorted Z.lt l
       ∧ ∀ t, t ∈ l ↔ t ∈ Restaurant.available_tables self.
Proof.
  eexists. split; [done|]. split.
  - apply StronglySorted_le_lt; [apply StronglySorted_merge_sort; apply _|].
    rewrite merge_sort_Permutation. apply NoDup_elements.
  - intros t. by rewrite merge_sort_Permutation, elem_of_elements.
Qed.

(** ** Saving and loading orders *)

(** X14: when [save_orders] returns normally it has printed the success
    message and written an array that holds exactly the records of the
    orders in memory, one for each order, and [load_orders] reads that file
    without an exception in any state, printing its success message. *)
Theorem saved_file_always_loads (saved : Restaurant.t) file out :
  Restaurant.save_orders saved = (file, out, Ok ()) →
  out = [OrdersSaved]
  ∧ (∃ l, file = Parsed (JArr (map Order.to_dict l))
          ∧ l ≡ₚ (map_to_list (Restaurant.orders saved)).*2)
  ∧ ∀ self, snd (fst (Restaurant.load_orders self file)) = [OrdersLoaded]
            ∧ snd (Restaurant.load_orders self file) = Ok ().
Proof.
  intros (_ & -> & ->)%save_orders_Ok. rewrite orders_data_alt.
  split; [done|]. split; [by eexists|].
  intros self. unfold Restaurant.load_orders, Restaurant.load_orders_body.
  cbn [json_load py_iter]. by rewrite load_loop_to_dict.
Qed.

Lemma saved_file_always_loads_witness :
  Restaurant.save_orders alice_with_tea
  = (Parsed (JArr [Order.to_dict (Order.mk 1 "Alice" [tea])]),
     [OrdersSaved], Ok ())
  ∧ ∀ self,
      snd (Restaurant.load_orders self
             (Parsed (JArr [Order.to_dict (Order.mk 1 "Alice" [tea])])))
      = Ok ().
Proof.
  assert (Restaurant.save_orders alice_with_tea
    = (Parsed (JArr [Order.to_dict (Order.mk 1 "Alice" [tea])]),
       [OrdersSaved], Ok ())) as Hsave by (by vm_compute).
  split; [exact Hsave|]. intros self.
  by destruct (saved_file_always_loads alice_with_tea _ _ Hsave)
    as (_ & _ & Hload); destruct (Hload self).
Defined.

(** X15: loading a file that the program saved keeps the table invariant:
    when the state that was saved and the state that loads are both reached
    with files whose table numbers are integers of [{1,2,3,4,5}], so is the
    state after the load of what [save_orders] left (whether it returned or
    raised), and its free and occupied tables partition [{1,2,3,4,5}]. *)
Theorem restore_saved_file_keeps_invariant (saved self : Restaurant.t) :
  reachable_by known_tables_only saved →
  reachable_by known_tables_only self →
  reachable_by known_tables_only
    (fst (fst (Restaurant.load_orders self
                 (fst (fst (Restaurant.save_orders saved))))))
  ∧ tables_invariant
      (fst (fst (Restaurant.load_orders self
                   (fst (fst (Restaurant.save_orders saved)))))).
Proof.
  intros Hsaved Hself.
  assert (∀ s, reachable_by known_tables_only s → tables_invariant s) as Hinv.
  { induction 1; eauto using init_tables_invariant, exec_tables_invariant. }
  assert (names_known_tables (fst (fst (Restaurant.save_orders saved))))
    as Hknown.
  { apply save_orders_names_known_tables; [|by apply Hinv].
    by eapply reachable_well_keyed. }
  assert (reachable_by known_tables_only
    (fst (fst (Restaurant.load_orders self
                 (fst (fst (Restaurant.save_orders saved))))))) as Hr.
  { apply (reachable_step _ self
             (LoadOrders (fst (fst (Restaurant.save_orders saved)))));
      [done..|].
    cbn [exec].
    destruct (save_orders_cases saved) as [-> | ->]; cbn [fst].
    - pose proof (orders_document_loads self
                    (Parsed (Restaurant.orders_data saved))) as Hok.
      destruct (Restaurant.load_orders self _) as [[s out] r]. simpl in *.
      rewrite Hok; [done|]. rewrite orders_data_alt. by eexists.
    - by destruct self. }
  split; [done|]. by apply Hinv.
Qed.

Lemma restore_saved_file_keeps_invariant_witness :
  reachable_by known_tables_only alice_at_1
  ∧ reachable_by known_tables_only Restaurant.init
  ∧ tables_invariant
      (fst (fst (Restaurant.load_orders Restaurant.init
                   (fst (fst (Restaurant.save_orders alice_at_1)))))).
Proof.
  split; [by apply alice_at_1_reachable|]. split; [apply reachable_init|].
  apply (restore_saved_file_keeps_invariant alice_at_1 Restaurant.init);
    [by apply alice_at_1_reachable|apply reachable_init].
Defined.

Lemma foldl_store_notin (l : list Order.t) : ∀ (m : gmap Z Order.t) t,
  t ∉ Order.table_number <$> l →
  foldl (λ m o, <[Order.table_number o := o]> m) m l !! t = m !! t.
Proof.
  induction l as [|o l IH]; intros m t Ht; simpl; [done|].
  apply not_elem_of_cons in Ht as [Hne Ht].
  rewrite IH by done. by rewrite lookup_insert_ne.
Qed.

(** X16: [load_orders] adds to the orders in memory, it does not replace
    them: after a file with the records of a list of orders, the orders of
    the tables that the file does not name are as before, each table that
    it names has the last order that the file gives for it, and exactly the
    named tables have left the free tables. *)
Theorem load_orders_merges (self : Restaurant.t) (l : list Order.t) :
  ∃ self',
    Restaurant.load_orders self (Parsed (JArr (map Order.to_dict l)))
    = (self', [OrdersLoaded], Ok ())
    ∧ Restaurant.menu self' = Restaurant.menu self
    ∧ Restaurant.available_tables self'
      = Restaurant.available_tables self
          ∖ list_to_set (Order.table_number <$> l)
    ∧ (∀ t, t ∉ Order.table_number <$> l →
            Restaurant.orders self' !! t = Restaurant.orders self !! t)
    ∧ (∀ l1 order l2, l = l1 ++ order :: l2 →
         Order.table_number order ∉ Order.table_number <$> l2 →
         Restaurant.orders self' !! Order.table_number order = Some order).
Proof.
  eexists. unfold Restaurant.load_orders, Restaurant.load_orders_body.
  cbn [json_load py_iter]. rewrite load_loop_to_dict.
  split; [done|]. simpl. split; [done|]. split; [done|]. split.
  - intros t Ht. by apply foldl_store_notin.
  - intros l1 order l2 -> Hlast. rewrite foldl_app. simpl.
    rewrite foldl_store_notin by done. apply lookup_insert_eq.
Qed.

Lemma load_loop_app_bad (good : list Order.t) bad rest e : ∀ self,
  (∀ s, Restaurant.load_order s bad = Raise e) →
  Restaurant.load_loop self (map Order.to_dict good ++ bad :: rest)
  = (fst (Restaurant.load_loop self (map Order.to_dict good)), Raise e).
Proof.
  induction good as [|o good IH]; intros self Hbad; simpl.
  - by rewrite Hbad.
  - rewrite load_order_to_dict. by apply IH.
Qed.

(** X17: [load_orders] stops at the first entry of the file that it cannot
    read as an order: the orders before it are stored as if the file had
    ended there, the entries after it are not looked at, nothing is printed
    and the exception goes to the caller. *)
Theorem load_orders_stops_at_bad_record self0 self good bad rest e :
  Restaurant.load_order self0 bad = Raise e →
  Restaurant.load_orders self
    (Parsed (JArr (map Order.to_dict good ++ bad :: rest)))
  = (fst (fst (Restaurant.load_orders self
                 (Parsed (JArr (map Order.to_dict good))))),
     [], Raise e).
Proof.
  intros [He Hany]%load_order_raises.
  unfold Restaurant.load_orders, Restaurant.load_orders_body.
  cbn [json_load py_iter]. rewrite (load_loop_app_bad _ _ _ e) by done.
  rewrite load_loop_to_dict. cbn [fst].
  by destruct He as [->|[k ->]].
Qed.

Lemma load_orders_stops_at_bad_record_witness :
  Restaurant.load_order Restaurant.init (JInt 5) = Raise TypeError
  ∧ Restaurant.load_orders Restaurant.init broken_file
    = (fst (fst (Restaurant.load_orders Restaurant.init
                   (Parsed (JArr (map Order.to_dict
                                      [Order.new 1 "Alice"]))))),
       [], Raise TypeError).
Proof.
  split; [done|].
  by apply (load_orders_stops_at_bad_record Restaurant.init Restaurant.init
              [Order.new 1 "Alice"] (JInt 5) [] TypeError).
Defined.

(** X18: in every reachable state [create_order] succeeds exactly when the
    table is among the free tables; its test for an existing order never
    decides, and its "table occupied" message is never printed. *)
Theorem create_order_succeeds_iff_free self t name :
  reachable self →
  (snd (Restaurant.create_order self t name) = true
   ↔ t ∈ Restaurant.available_tables self)
  ∧ TableOccupied t ∉ snd (fst (Restaurant.create_order self t name)).
Proof.
  intros Hr. split; [|by apply create_order_never_says_occupied].
  apply reachable_well_keyed in Hr. split.
  - unfold Restaurant.create_order. by case_decide.
  - intros Hfree. rewrite create_order_free; [done..|].
    by apply free_table_has_no_order.
Qed.

Lemma create_order_succeeds_iff_free_witness :
  reachable vacated7
  ∧ (snd (Restaurant.create_order vacated7 7 "Eve") = true
     ↔ 7 ∈ Restaurant.available_tables vacated7).
Proof.
  split; [apply vacated7_reachable|].
  apply (create_order_succeeds_iff_free vacated7 7 "Eve"), vacated7_reachable.
Defined.

(** ** The console front end, further *)

Lemma appended_to_order_refl t w : appended_to_order t w w.
Proof.
  repeat split. destruct (_ !! t) as [order|] eqn:E; [|done].
  exists []. rewrite app_nil_r. split; [by destruct order|constructor].
Qed.

Lemma appended_to_order_trans t w1 w2 w3 :
  appended_to_order t w1 w2 → appended_to_order t w2 w3 →
  appended_to_order t w1 w3.
Proof.
  intros (Hf1 & Hm1 & Ha1 & Ho1 & Ht1) (Hf2 & Hm2 & Ha2 & Ho2 & Ht2).
  repeat split; try congruence.
  - intros t' Hne. by rewrite Ho2, Ho1.
  - destruct (Restaurant.orders (restaurant w1) !! t) as [order|].
    + destruct Ht1 as (added1 & Hw2 & Hadded1). rewrite Hw2 in Ht2.
      destruct Ht2 as (added2 & Hw3 & Hadded2). simpl in Hw3.
      exists (added1 ++ added2). rewrite app_assoc. split; [done|].
      apply Forall_app. split; [done|]. by rewrite <- Hm1.
    + by rewrite Ht1 in Ht2.
Qed.

(** [add_to_order], seen from the world. *)
Lemma add_to_order_appends t n w :
  appended_to_order t w
    (World (fst (Restaurant.add_to_order (restaurant w) t n)) (orders_json w)).
Proof.
  destruct w as [r f]. cbn [restaurant orders_json].
  unfold Restaurant.add_to_order, Menu.get_item_by_name.
  destruct (Restaurant.orders r !! t) as [order|] eqn:Ht;
    [|apply appended_to_order_refl].
  destruct (Menu.find_by_name _ n) as [item|] eqn:Hfind;
    [|apply appended_to_order_refl].
  repeat split; simpl.
  - intros t' Hne. by rewrite lookup_insert_ne.
  - rewrite Ht, lookup_insert_eq. exists [item]. split; [done|].
    apply Forall_singleton. by apply find_by_name_Some in Hfind as [_ ?].
Qed.

Section ConsoleMore.
Context (py_int : string → option Z) (strip_upper : string → string)
        (letter_index : string → option nat) (isdigit : string → bool).

Lemma py_index_elem {A} (l : list A) i x : py_index l i = Ok x → x ∈ l.
Proof.
  unfold py_index. destruct (l !! i) eqn:E; [|done].
  intros [= <-]. by eapply list_elem_of_lookup_2.
Qed.

Lemma pick_category_listed categories choice out c :
  pick_category py_int letter_index isdigit categories choice
  = (out, Ok (Some c)) →
  c ∈ categories.
Proof.
  assert (∀ i r, Some <$> py_index categories i = r →
                 (out, r) = (out, Ok (Some c)) → c ∈ categories) as Hidx.
  { intros i r <- [= Hr]. destruct (py_index categories i) eqn:E; [|done..].
    simpl in Hr. injection Hr as ->. by eapply py_index_elem. }
  unfold pick_category, invalid_choice.
  destruct (decide (choice = "0")); [done|].
  destruct (letter_index choice) as [index|].
  - destruct (index <? length categories)%nat; [|done].
    intros [= <- Hr]. by eapply Hidx.
  - destruct (isdigit choice); [|done].
    destruct (py_int choice) as [z|]; [|done].
    destruct (_ && _); [|done].
    intros [= <- Hr]. by eapply Hidx.
Qed.

Lemma show_category_menu_returns_listed_aux stdin w :
  unread (show_category_menu py_int strip_upper letter_index isdigit stdin w)
  = stdin
  ∨ unread (show_category_menu py_int strip_upper letter_index isdigit
              stdin w) = tail stdin.
Proof.
  unfold show_category_menu.
  destruct (Menu.get_categories _); [by left|].
  destruct stdin; [by left|]. destruct (pick_category _ _ _ _ _). by right.
Qed.

(** X19: [show_category_menu] leaves the world as it is, reads at most one
    line, and a category that it returns is one of [get_categories]. *)
Theorem show_category_menu_returns_listed stdin w :
  after (show_category_menu py_int strip_upper letter_index isdigit stdin w)
  = w
  ∧ (unread (show_category_menu py_int strip_upper letter_index isdigit
               stdin w) = stdin
     ∨ unread (show_category_menu py_int strip_upper letter_index isdigit
                 stdin w) = tail stdin)
  ∧ ∀ c,
      returned (show_category_menu py_int strip_upper letter_index isdigit
                  stdin w) = Ok (Some c) →
      c ∈ Menu.get_categories (Restaurant.menu (restaurant w)).
Proof.
  unfold show_category_menu.
  destruct (Menu.get_categories _) as [|c0 cs] eqn:Hc; simpl.
  - repeat split; [by left|done].
  - destruct stdin as [|line stdin]; simpl.
    + repeat split; [by left|done].
    + destruct (pick_category _ _ _ _ _) as [out r] eqn:Hpick. simpl.
      repeat split; [by right|].
      intros c ->. by apply pick_category_listed in Hpick.
Qed.

Lemma choose_dish_appends t items choice stdin w :
  appended_to_order t w
    (after (choose_dish py_int isdigit t items choice stdin w)).
Proof.
  unfold choose_dish, raise, lift, print, call_, call, mbind, console_bind.
  destruct (isdigit choice); [|apply appended_to_order_refl].
  destruct (py_int choice) as [z|]; [|apply appended_to_order_refl].
  destruct (_ && _); [|apply appended_to_order_refl]. simpl.
  destruct (py_index items _) as [selected| |]; simpl;
    [|apply appended_to_order_refl..].
  pose proof (add_to_order_appends t (MenuItem.name selected) w) as Happ.
  by destruct (Restaurant.add_to_order _ t _) as [r out].
Qed.

Lemma dish_loop_appends_aux t (n : nat) : ∀ stdin w,
  (length stdin ≤ n)%nat →
  appended_to_order t w
    (after (dish_loop py_int strip_upper letter_index isdigit t stdin w))
  ∧ unread (dish_loop py_int strip_upper letter_index isdigit t stdin w)
    `suffix_of` stdin.
Proof.
  induction n as [|n IH]; intros stdin w Hlen.
  - destruct stdin; [|simpl in Hlen; lia]. simpl.
    destruct (Menu.get_categories _); simpl;
      (split; [apply appended_to_order_refl|done]).
  - destruct stdin as [|line [|choice stdin2]]; simpl;
      destruct (Menu.get_categories _) as [|c0 cs]; simpl;
      try (split; [apply appended_to_order_refl|done]).
    + destruct (pick_category _ _ _ _ _) as [out [[c|]| |]]; simpl;
        (split; [apply appended_to_order_refl|]);
        try (by apply suffix_cons_r); apply suffix_nil.
    + destruct (pick_category _ _ _ _ _) as [out [[c|]| |]]; simpl;
        try (split; [apply appended_to_order_refl|];
             by apply suffix_cons_r).
      pose proof (choose_dish_appends t
        (Menu.get_items_by_category (Restaurant.menu (restaurant w)) c)
        choice stdin2 w) as Happ.
      pose proof (choose_dish_unread py_int isdigit t
        (Menu.get_items_by_category (Restaurant.menu (restaurant w)) c)
        choice stdin2 w) as Hun.
      destruct (choose_dish _ _ _ _ _ _ _) as [u a p [x| |]]; simpl in *;
        subst u.
      * destruct (IH stdin2 a) as [Hloop Hsuf]; [simpl in Hlen; lia|].
        split; [by eapply appended_to_order_trans|].
        by do 2 apply suffix_cons_r.
      * split; [done|]. by do 2 apply suffix_cons_r.
      * split; [done|]. by do 2 apply suffix_cons_r.
Qed.

(** X20: the loop of the wizard changes nothing but the order of the
    wizard's table, to which it only appends items of the menu: the menu,
    the free tables, the orders of the other tables and [orders.json] are as
    before. *)
Theorem dish_loop_appends_to_own_order t stdin w :
  appended_to_order t w
    (after (dish_loop py_int strip_upper letter_index isdigit t stdin w)).
Proof. by apply (dish_loop_appends_aux t (length stdin)). Qed.

(** *** Reading the input from the front *)

Lemma bind_unfold {A B} (m : console A) (f : A → console B) stdin w :
  (m ≫= f) stdin w
  = match returned (m stdin w) with
    | Ok a => preceded (printed (m stdin w))
                       (f a (unread (m stdin w)) (after (m stdin w)))
    | Raise e => Outcome (unread (m stdin w)) (after (m stdin w))
                         (printed (m stdin w)) (Raise e)
    | IllTyped => Outcome (unread (m stdin w)) (after (m stdin w))
                          (printed (m stdin w)) IllTyped
    end.
Proof. reflexivity. Qed.

Lemma reads_prefix_bind {A B} (m : console A) (f : A → console B) :
  reads_prefix m → (∀ a, reads_prefix (f a)) → reads_prefix (m ≫= f).
Proof.
  intros Hm Hf stdin w. rewrite bind_unfold. specialize (Hm stdin w).
  destruct (returned (m stdin w)) as [a| |]; simpl; [|done..].
  by etrans; [apply Hf|].
Qed.

Lemma reads_prefix_ret {A} (a : A) : reads_prefix (mret a).
Proof. by intros stdin w. Qed.

Lemma reads_prefix_print l : reads_prefix (print l).
Proof. by intros stdin w. Qed.

Lemma reads_prefix_lift {A} (r : result A) : reads_prefix (lift r).
Proof. by intros stdin w. Qed.

Lemma reads_prefix_input p : reads_prefix (input p).
Proof. intros [|line stdin] w; simpl; [done|]. by apply suffix_cons_r. Qed.

Lemma reads_prefix_the_restaurant : reads_prefix the_restaurant.
Proof. by intros stdin w. Qed.

Lemma reads_prefix_call {A} (f : Restaurant.t → Restaurant.t * list Msg * A) :
  reads_prefix (call f).
Proof.
  intros stdin w. unfold call. by destruct (f _) as [[r out] a].
Qed.

Lemma reads_prefix_query {A} (f : Restaurant.t → list Msg * result A) :
  reads_prefix (query f).
Proof. intros stdin w. unfold query. by destruct (f _) as [out r]. Qed.

Lemma reads_prefix_save_orders : reads_prefix save_orders.
Proof.
  intros stdin w. unfold save_orders.
  by destruct (Restaurant.save_orders _) as [[file out] r].
Qed.

Lemma reads_prefix_show_category_menu :
  reads_prefix (show_category_menu py_int strip_upper letter_index isdigit).
Proof.
  intros stdin w.
  destruct (show_category_menu_returns_listed_aux stdin w) as [-> | ->];
    [done|]. destruct stdin; [done|]. by apply suffix_cons_r.
Qed.

Lemma reads_prefix_dish_loop t :
  reads_prefix (dish_loop py_int strip_upper letter_index isdigit t).
Proof. intros stdin w. by apply (dish_loop_appends_aux t (length stdin)). Qed.

Lemma reads_prefix_wizard :
  reads_prefix
    (order_creation_wizard py_int strip_upper letter_index isdigit).
Proof.
  unfold order_creation_wizard.
  apply reads_prefix_bind; [apply reads_prefix_call|]. intros _.
  apply reads_prefix_bind; [apply reads_prefix_input|]. intros line.
  destruct (py_int line) as [t|]; [|apply reads_prefix_print].
  apply reads_prefix_bind; [apply reads_prefix_the_restaurant|]. intros r.
  case_decide; [destruct (_ !! t); apply reads_prefix_print|].
  apply reads_prefix_bind; [apply reads_prefix_input|]. intros name.
  apply reads_prefix_bind; [apply reads_prefix_call|]. intros [|];
    [|apply reads_prefix_ret].
  apply reads_prefix_bind; [apply reads_prefix_dish_loop|]. intros _.
  apply reads_prefix_save_orders.
Qed.

Ltac reads_prefix_steps :=
  repeat first
    [ apply reads_prefix_ret | apply reads_prefix_print
    | apply reads_prefix_lift | apply reads_prefix_save_orders
    | apply reads_prefix_wizard | apply reads_prefix_show_category_menu
    | apply reads_prefix_input | apply reads_prefix_the_restaurant
    | apply reads_prefix_call | apply reads_prefix_query
    | apply reads_prefix_bind; [|intros ?]
    | match goal with |- reads_prefix (match ?x with _ => _ end) =>
        destruct x end ].

Lemma reads_prefix_main_turn :
  reads_prefix (main_turn py_int strip_upper letter_index isdigit).
Proof.
  unfold main_turn.
  apply reads_prefix_bind; [apply reads_prefix_print|]. intros _.
  apply reads_prefix_bind; [apply reads_prefix_input|]. intros choice.
  repeat case_decide; reads_prefix_steps.
Qed.

(** *** The wizard *)

(** X21: for a table that is not free the wizard tells an occupied table
    from a number that is no table, prints the one or the other message and
    returns with the world unchanged, before it asks for a name. *)
Theorem wizard_tells_occupied_from_unknown line t stdin w :
  py_int line = Some t →
  t ∉ Restaurant.available_tables (restaurant w) →
  order_creation_wizard py_int strip_upper letter_index isdigit
    (line :: stdin) w
  = Outcome stdin w
      (Restaurant.show_available_tables (restaurant w)
       ++ [Prompt AskTable;
           if decide (t ∈ dom (Restaurant.orders (restaurant w)))
           then TableOccupied t else TableNotExist t])
      (Ok ()).
Proof.
  intros Hline Ht. unfold order_creation_wizard, mbind, console_bind.
  simpl. rewrite Hline. simpl.
  rewrite decide_True by done. destruct w as [r f]. simpl in *.
  destruct (Restaurant.orders r !! t) as [order|] eqn:E; simpl.
  - rewrite decide_True; [done|]. apply elem_of_dom. by eexists.
  - rewrite decide_False; [done|]. by apply not_elem_of_dom.
Qed.

(** X22: the wizard touches [orders.json] only in its last statement,
    [save_orders]: a wizard that returns has either left the world as it was
    or saved the orders in memory, and a wizard that ends because the input
    has run out ([EOFError]) or because [int] has rejected a dish number
    ([ValueError]) has not touched the file, whatever it has changed in
    memory. *)
Theorem wizard_saves_what_it_changed stdin w :
  (returned (order_creation_wizard py_int strip_upper letter_index isdigit
               stdin w) = Ok () →
   after (order_creation_wizard py_int strip_upper letter_index isdigit
            stdin w) = w
   ∨ in_sync (after (order_creation_wizard py_int strip_upper letter_index
                       isdigit stdin w)))
  ∧ (returned (order_creation_wizard py_int strip_upper letter_index isdigit
                 stdin w) = Raise EOFError
     ∨ returned (order_creation_wizard py_int strip_upper letter_index
                   isdigit stdin w) = Raise ValueError →
     orders_json (after (order_creation_wizard py_int strip_upper
                           letter_index isdigit stdin w))
     = orders_json w).
Proof.
  unfold order_creation_wizard, mbind, console_bind.
  destruct w as [r f]. simpl.
  destruct stdin as [|line stdin1]; simpl; [by split|].
  destruct (py_int line) as [t|]; simpl; [|split; [by left|done]].
  case_decide as Hfree.
  { destruct (Restaurant.orders r !! t); simpl; (split; [by left|done]). }
  destruct stdin1 as [|name stdin2]; simpl; [by split|].
  unfold call. simpl.
  destruct (Restaurant.create_order r t name) as [[r' out] [|]] eqn:Hcreate;
    simpl.
  - pose proof (dish_loop_appends_aux t (length stdin2) stdin2 (World r' f)
                  (le_n _)) as [(Hfile & _) _].
    destruct (dish_loop _ _ _ _ t stdin2 _) as [u a p [[]| |]]; simpl in *.
    + unfold save_orders.
      destruct (save_orders_cases (restaurant a)) as [-> | ->]; simpl.
      * split; [intros _; right; reflexivity|by intros [|]].
      * split; [done|by intros [|]].
    + by split.
    + split; [done|by intros [|]].
  - split; [|done]. intros _. left. f_equal.
    revert Hcreate. unfold Restaurant.create_order.
    repeat case_match; by intros [= <- _].
Qed.

(** *** One turn of [main], and [main] *)

Lemma print_input_bind {B} l p (k : string → console B) stdin w :
  (print l;; c ← input p; k c) stdin w
  = match stdin with
    | [] => Outcome [] w (l ++ [Prompt p]) (Raise EOFError)
    | c :: rest => preceded l (preceded [Prompt p] (k c rest w))
    end.
Proof. by destruct stdin. Qed.

(** A turn that returns has read its choice, and more lines only after it. *)
Lemma main_turn_reads stdin w b :
  returned (main_turn py_int strip_upper letter_index isdigit stdin w) = Ok b →
  ∃ choice rest,
    stdin = choice :: rest
    ∧ unread (main_turn py_int strip_upper letter_index isdigit stdin w)
      `suffix_of` rest.
Proof.
  unfold main_turn. rewrite print_input_bind.
  destruct stdin as [|choice rest]; [done|]. intros _.
  exists choice, rest. split; [done|]. cbn [preceded unread].
  assert (∀ m : console bool, reads_prefix m →
            unread (m rest w) `suffix_of` rest) as Hm by (intros m Hm; apply Hm).
  apply Hm. repeat case_decide; reads_prefix_steps.
Qed.

Lemma main_turn_break stdin w :
  returned (main_turn py_int strip_upper letter_index isdigit stdin w)
  = Ok false →
  ∃ rest, stdin = "6" :: rest
          ∧ in_sync (after (main_turn py_int strip_upper letter_index isdigit
                              stdin w)).
Proof.
  unfold main_turn. rewrite print_input_bind.
  destruct stdin as [|choice rest]; [done|]. cbn [preceded returned after].
  repeat case_decide; subst.
  - rewrite bind_unfold.
    by destruct (returned (order_creation_wizard _ _ _ _ _ _)).
  - rewrite bind_unfold.
    destruct (returned (show_category_menu _ _ _ _ _ _)) as [[c|]| |];
      simpl; try done.
    case_decide; [done|]. rewrite !bind_unfold. simpl. done.
  - rewrite bind_unfold. destruct rest as [|line rest]; simpl; [done|].
    destruct (py_int line); [|done]. rewrite !bind_unfold. unfold query.
    by destruct (Restaurant.show_order _ _) as [out [[]| |]].
  - rewrite bind_unfold. destruct rest as [|line rest]; simpl; [done|].
    destruct (py_int line); [|done]. rewrite !bind_unfold. simpl.
    unfold call_, call, save_orders. simpl.
    destruct (Restaurant.cancel_order _ _). simpl.
    by destruct (Restaurant.save_orders _) as [[file out] [[]| |]].
  - rewrite !bind_unfold. by simpl.
  - rewrite !bind_unfold. unfold save_orders.
    destruct (save_orders_cases (restaurant w)) as [-> | ->]; simpl; [|done].
    intros _. exists rest. split; [done|]. reflexivity.
  - rewrite !bind_unfold. by simpl.
Qed.

Lemma show_category_menu_after stdin w :
  after (show_category_menu py_int strip_upper letter_index isdigit stdin w)
  = w.
Proof.
  unfold show_category_menu. destruct (Menu.get_categories _); [done|].
  destruct stdin; [done|]. by destruct (pick_category _ _ _ _ _).
Qed.

(** X23: a turn of [main] changes the world only at the choices "1"
    (wizard), "4" (cancel) and "6" (exit): at every other choice, whatever
    lines follow, the restaurant and [orders.json] are as before. *)
Theorem main_turn_read_only_choices choice stdin w :
  choice ≠ "1" → choice ≠ "4" → choice ≠ "6" →
  after (main_turn py_int strip_upper letter_index isdigit
           (choice :: stdin) w) = w.
Proof.
  intros H1 H4 H6. unfold main_turn. rewrite print_input_bind.
  cbn [preceded after]. rewrite (decide_False (P := choice = "1")) by done.
  rewrite (decide_False (P := choice = "4")) by done.
  rewrite (decide_False (P := choice = "6")) by done.
  repeat case_decide; subst.
  - rewrite bind_unfold.
    pose proof (show_category_menu_after stdin w) as Hafter.
    destruct (show_category_menu _ _ _ _ _ _) as [u a p [[c|]| |]];
      simpl in *; try done.
    case_decide; [done|]. rewrite !bind_unfold. by simpl.
  - rewrite bind_unfold. destruct stdin as [|line rest]; simpl; [done|].
    destruct (py_int line); [|done]. rewrite !bind_unfold. unfold query.
    by destruct (Restaurant.show_order _ _) as [out [[]| |]].
  - rewrite !bind_unfold. simpl. by destruct w.
  - rewrite !bind_unfold. by simpl.
Qed.

Lemma main_loop_ends fuel : ∀ stdin w,
  (length stdin < fuel)%nat →
  is_Some (main_loop py_int strip_upper letter_index isdigit fuel stdin w).
Proof.
  induction fuel as [|fuel IH]; intros stdin w Hlen; [lia|].
  cbn [main_loop].
  destruct (returned (main_turn py_int strip_upper letter_index isdigit
                        stdin w)) as [[|]| |] eqn:Hturn;
    try by eexists.
  apply main_turn_reads in Hturn as (choice & rest & -> & Hsuf).
  apply suffix_length in Hsuf. simpl in Hlen.
  destruct (IH (unread (main_turn py_int strip_upper letter_index isdigit
                          (choice :: rest) w))
               (after (main_turn py_int strip_upper letter_index isdigit
                         (choice :: rest) w))) as [o Ho]; [lia|].
  rewrite Ho. by eexists.
Qed.

Lemma main_loop_returns_after_exit fuel : ∀ stdin w o,
  main_loop py_int strip_upper letter_index isdigit fuel stdin w = Some o →
  returned o = Ok () →
  "6" ∈ stdin ∧ in_sync (after o).
Proof.
  induction fuel as [|fuel IH]; intros stdin w o; cbn [main_loop]; [done|].
  destruct (returned (main_turn py_int strip_upper letter_index isdigit
                        stdin w)) as [[|]| |] eqn:Hturn.
  - destruct (main_loop _ _ _ _ fuel _ _) as [o'|] eqn:Hloop; [|done].
    simpl. intros [= <-] Hret. simpl in *.
    destruct (IH _ _ _ Hloop Hret) as [Hin Hsync]. split; [|done].
    destruct (reads_prefix_main_turn stdin w) as [k Hk].
    rewrite Hk. apply elem_of_app. by right.
  - intros [= <-] _. simpl.
    apply main_turn_break in Hturn as (rest & -> & Hsync).
    split; [left|done].
  - by intros [= <-].
  - by intros [= <-].
Qed.

(** X24: [main] ends: with more turns allowed than there are lines of
    input, the run comes to an end (by the exit choice or by an exception),
    since every turn that returns has read a line. *)
Theorem main_ends fuel menu_json orders_file stdin :
  (length stdin < fuel)%nat →
  is_Some (main py_int strip_upper letter_index isdigit fuel
             menu_json orders_file stdin).
Proof.
  intros Hlen. unfold main.
  destruct (Restaurant.load_menu _ _) as [[r1 out1] [[]| |]]; try by eexists.
  destruct (Restaurant.load_orders _ _) as [[r2 out2] [[]| |]];
    try by eexists.
  destruct (main_loop_ends fuel stdin (World r2 orders_file) Hlen) as [o Ho].
  rewrite Ho. by eexists.
Qed.

(** X25: [main] returns normally only after the exit choice: when it
    returns, the line "6" was among its input, and [orders.json] holds the
    orders that are in memory at that moment. *)
Theorem main_returns_only_after_exit fuel menu_json orders_file stdin o :
  main py_int strip_upper letter_index isdigit fuel menu_json orders_file
       stdin = Some o →
  returned o = Ok () →
  "6" ∈ stdin ∧ in_sync (after o).
Proof.
  unfold main.
  destruct (Restaurant.load_menu _ _) as [[r1 out1] [[]| |]];
    [|by intros [= <-]..].
  destruct (Restaurant.load_orders _ _) as [[r2 out2] [[]| |]];
    [|by intros [= <-]..].
  destruct (main_loop _ _ _ _ fuel stdin _) as [o'|] eqn:Hloop; [|done].
  simpl. intros [= <-] Hret.
  by apply (main_loop_returns_after_exit fuel stdin (World r2 orders_file) o').
Qed.
End ConsoleMore.

Lemma wizard_tells_occupied_from_unknown_witness :
  decimal "1" = Some 1
  ∧ (1 ∉ Restaurant.available_tables alice_at_1)
  ∧ order_creation_wizard decimal id (λ _, None) (λ _, false)
      ["1"; "Bob"] (World alice_at_1 Missing)
    = Outcome ["Bob"] (World alice_at_1 Missing)
        [AvailableTables [2; 3; 4; 5]; Prompt AskTable; TableOccupied 1]
        (Ok ()).
Proof.
  assert (1 ∉ Restaurant.available_tables alice_at_1) as H1
    by (vm_compute; set_solver).
  split; [done|]. split; [exact H1|].
  by rewrite (wizard_tells_occupied_from_unknown decimal id (λ _, None)
                (λ _, false) "1" 1 ["Bob"] (World alice_at_1 Missing)).
Defined.

Lemma main_turn_read_only_choices_witness :
  "3" ≠ "1" ∧ "3" ≠ "4" ∧ "3" ≠ "6"
  ∧ after (main_turn decimal id (λ _, None) (λ _, false) ["3"; "1"]
             (World alice_with_tea Missing))
    = World alice_with_tea Missing.
Proof.
  split; [done|]. split; [done|]. split; [done|].
  by apply (main_turn_read_only_choices decimal id (λ _, None) (λ _, false)
              "3" ["1"] (World alice_with_tea Missing)).
Defined.

Lemma main_ends_witness :
  (length ["1"; "2"; "Bob"; "6"] < 5)%nat
  ∧ is_Some (main decimal id (λ _, None) (λ _, false) 5
               tea_and_soup Missing ["1"; "2"; "Bob"; "6"]).
Proof.
  assert (length ["1"; "2"; "Bob"; "6"] < 5)%nat as Hlen by (simpl; lia).
  split; [exact Hlen|].
  exact (main_ends decimal id (λ _, None) (λ _, false) 5
           tea_and_soup Missing ["1"; "2"; "Bob"; "6"] Hlen).
Defined.

Lemma main_returns_only_after_exit_witness :
  ∃ o, main decimal id (λ _, None) (λ _, false) 3 tea_and_soup Missing
            ["5"; "6"] = Some o
       ∧ returned o = Ok ()
       ∧ "6" ∈ ["5"; "6"] ∧ in_sync (after o).
Proof.
  eexists. split; [by vm_compute|]. split; [reflexivity|].
  apply (main_returns_only_after_exit decimal id (λ _, None) (λ _, false) 3
           tea_and_soup Missing ["5"; "6"]); [by vm_compute|reflexivity].
Defined.
